(** * simply-put: a JSON facade over the App Engine datastore

    Shallow embedding of [app.go] (package [simplyput]) and proofs about
    its document codec ([mapToPlist] / [plistToMap]), its CRUD operations
    ([insert], [get], [update], [delete2], [list]) and its request
    dispatch ([getKindAndID], [handle]).

    Conventions.
    - A Go [map[string]interface{}] is a [Doc]: the list of its entries,
      keys unique, in the order in which [range] visits them.  Go leaves
      that order unspecified and [mapToPlist] emits properties in it, so
      the order is part of the data; quantifying over every [Doc] with
      unique keys covers every map under every iteration order.
      [m[k] = v] replaces the entry in place, or adds it behind the
      others when [k] is new; where the code ranges over a map after
      writing to it ([insert], [update]), the order of that range is
      again open, and chosen by the environment ([rangeSeed]).
    - The datastore itself ([appengine/datastore]) is outside the sources.
      Its entities are a [gmap] from (kind, id) to the stored property
      list; what the backend decides by itself (failures, the identifier
      given to a new entity, the rows of a query, the clock, the identity
      provider) is an input, gathered in [Env].
    - [int64] values are [Z]; the only place where the width shows is
      [strconv.ParseInt], whose range check is written out. *)

From Stdlib Require Import String Ascii ZArith List Bool Lia.
From Stdlib Require Import Floats.SpecFloat.
From Stdlib Require Import Sorting.Permutation.
From stdpp Require Import gmap strings list fin_maps.
Import ListNotations.
Local Open Scope Z_scope.

(** ** Strings: the functions of [strings] and [strconv] used by the code *)

Module GoStrings.

(** [strings.HasPrefix(s, p)] *)
Definition HasPrefix (s p : string) : bool := String.prefix p s.

(** [s[n:]] for [n <= len(s)] *)
Fixpoint from (n : nat) (s : string) : string :=
  match n, s with
  | O, _ => s
  | S n', String _ r => from n' r
  | S _, EmptyString => EmptyString
  end.

(** [strings.Split(s, sep)] for a one-byte separator: the pieces of [s]
    between the occurrences of [sep]; always at least one piece. *)
Fixpoint Split (sep : ascii) (s : string) : list string :=
  match s with
  | EmptyString => [EmptyString]
  | String c r =>
      if Ascii.eqb c sep then EmptyString :: Split sep r
      else match Split sep r with
           | h :: t => String c h :: t
           | [] => [String c EmptyString]
           end
  end.

(** [strings.Join(parts, sep)] (used to state facts about dotted names) *)
Fixpoint Join (sep : ascii) (parts : list string) : string :=
  match parts with
  | [] => EmptyString
  | [p] => p
  | p :: ps => p +:+ String sep (Join sep ps)
  end.

(** [c] does not occur in [s] *)
Fixpoint lacks (c : ascii) (s : string) : bool :=
  match s with
  | EmptyString => true
  | String a r => negb (Ascii.eqb a c) && lacks c r
  end.

Definition digit (c : ascii) : option Z :=
  let n := Z.of_N (N_of_ascii c) in
  if (48 <=? n) && (n <=? 57) then Some (n - 48) else None.

(** The digits of [strconv.ParseUint(s, 10, 64)], read into an unbounded
    integer; [None] is a syntax error. *)
Fixpoint digits (acc : Z) (s : string) : option Z :=
  match s with
  | EmptyString => Some acc
  | String c r =>
      match digit c with
      | Some d => digits (10 * acc + d) r
      | None => None
      end
  end.

Definition ParseUint (s : string) : option Z :=
  match s with
  | EmptyString => None
  | _ => digits 0 s
  end.

(** [strconv.ParseInt(s, 10, 64)]: an optional sign, then decimal digits;
    [None] when the syntax is wrong or the value does not fit in 64 bits
    (both are a non-nil [err] for the caller). *)
Definition ParseInt (s : string) : option Z :=
  match s with
  | EmptyString => None
  | String c r =>
      let neg := Ascii.eqb c "-" in
      let body := if Ascii.eqb c "+" || neg then r else s in
      match ParseUint body with
      | None => None
      | Some un =>
          let cutoff := 2 ^ 63 in
          if negb neg && (cutoff <=? un) then None
          else if neg && (cutoff <? un) then None
          else Some (if neg then - un else un)
      end
  end.

End GoStrings.
Import GoStrings.

(** ** Values, documents and properties *)

(** A [float64], as decoded from a JSON number.  The codec only moves
    these around. *)
Definition float64 := spec_float.

(** The [float64] of an integer literal. *)
Definition num (z : Z) : float64 := binary_normalize 53 1024 z 0 false.

Local Unset Elimination Schemes.

(** What an [interface{}] holds in this program: the results of
    [encoding/json] ([nil], [bool], [float64], [string], [[]interface{}],
    [map[string]interface{}]) and the [int64] of identifiers and
    timestamps. *)
Inductive Value : Type :=
| VNull
| VBool (b : bool)
| VNum (f : float64)
| VInt (i : Z)
| VStr (s : string)
| VArr (l : list Value)
| VDoc (m : list (string * Value)).

Local Set Elimination Schemes.

Definition Doc := list (string * Value).

(** [datastore.Property] (the fields the program sets and reads) *)
Record Property := mkProperty {
  Name : string;
  PValue : Value;
  Multiple : bool
}.

Definition PropertyList := list Property.

Definition idKey : string := "_id".
Definition createdKey : string := "_created".
Definition updatedKey : string := "_updated".
Definition defaultLimit : Z := 10.

(** [v.(map[string]interface{})] succeeds *)
Definition isDoc (v : Value) : bool :=
  match v with VDoc _ => true | _ => false end.

(** [v.([]interface{})] succeeds *)
Definition isArr (v : Value) : bool :=
  match v with VArr _ => true | _ => false end.

(** [v, exists := m[k]] *)
Fixpoint doc_get (k : string) (m : Doc) : option Value :=
  match m with
  | [] => None
  | (k', v) :: r => if String.eqb k k' then Some v else doc_get k r
  end.

(** [m[k] = v] *)
Fixpoint doc_set (k : string) (v : Value) (m : Doc) : Doc :=
  match m with
  | [] => [(k, v)]
  | (k', v') :: r =>
      if String.eqb k k' then (k', v) :: r else (k', v') :: doc_set k v r
  end.

(** [delete(m, k)] *)
Fixpoint doc_delete (k : string) (m : Doc) : Doc :=
  match m with
  | [] => []
  | (k', v') :: r =>
      if String.eqb k k' then doc_delete k r else (k', v') :: doc_delete k r
  end.

Definition keys (m : Doc) : list string := List.map fst m.

(** ** The codec *)

(** The body of the loop of [mapToPlist]: what one entry [k, v] of the map
    appends to [pl]. *)
Fixpoint entryToPlist (prefix k : string) (v : Value) {struct v} : PropertyList :=
  match v with
  | VDoc m =>
      flat_map (fun kv => entryToPlist (prefix +:+ k +:+ ".") (fst kv) (snd kv)) m
  | VArr l =>
      List.map (fun mv => mkProperty (prefix +:+ k) mv true) l
  | _ => [mkProperty (prefix +:+ k) v false]
  end.

(** [mapToPlist(prefix, m)] *)
Definition mapToPlist (prefix : string) (m : Doc) : PropertyList :=
  flat_map (fun kv => entryToPlist prefix (fst kv) (snd kv)) m.

(** The end of one round of the outer loop of [plistToMap]: the write at
    [leaf] in the map [sub] the walk has reached. *)
Definition setLeaf (leaf : string) (v : Value) (sub : Doc) : Doc :=
  match doc_get leaf sub with
  | Some (VArr l) => doc_set leaf (VArr (l ++ [v])) sub
  | Some old => doc_set leaf (VArr [old; v]) sub
  | None => doc_set leaf v sub
  end.

(** The inner loop of [plistToMap] followed by the write at the leaf.
    [sub] is a reference into the map under construction and the writes
    happen in place; here the path walked so far is rebuilt around the
    changed map.  That gives the same result as long as no map is
    reachable from two places of it, which holds of the maps made here
    and of the values of properties that the datastore or [mapToPlist]
    produced (no two of them share a map).  When the segment holds something that is not a map, the
    branch is empty and [sub] stays where it is. *)
Fixpoint walk (parts : list string) (leaf : string) (v : Value) (sub : Doc) : Doc :=
  match parts with
  | [] => setLeaf leaf v sub
  | p :: ps =>
      match doc_get p sub with
      | Some (VDoc ii) => doc_set p (VDoc (walk ps leaf v ii)) sub
      | Some _ => walk ps leaf v sub
      | None => doc_set p (VDoc (walk ps leaf v [])) sub
      end
  end.

(** One round of the outer loop of [plistToMap]. *)
Definition addProperty (m : Doc) (p : Property) : Doc :=
  let parts := Split "." (Name p) in
  walk (removelast parts) (List.last parts EmptyString) (PValue p) m.

(** The map after the outer loop, before [_id] is set. *)
Definition decodeProps (pl : PropertyList) : Doc :=
  fold_left addProperty pl [].

(** [plistToMap(pl, id)] *)
Definition plistToMap (pl : PropertyList) (id : Z) : Doc :=
  doc_set idKey (VInt id) (decodeProps pl).

(** ** The datastore and the environment of a request *)

(** A result or an error. *)
Inductive result (E A : Type) : Type :=
| Ok (a : A)
| Err (e : E).
Arguments Ok {E A} a.
Arguments Err {E A} e.

(** [datastore.Cursor], in its web-safe form ([Cursor.String()]); the zero
    [Cursor] is the empty string. *)
Definition Cursor := string.
Definition zeroCursor : Cursor := EmptyString.

(** A [*datastore.Query] is the kind given to [NewQuery] and the
    derivations applied to it, oldest first.  What they mean is the
    backend's business. *)
Inductive QueryOp : Type :=
| QLimit (n : Z)
| QOrder (fieldName : string)
| QStart (c : Cursor)
| QEnd (c : Cursor)
| QFilter (filterStr : string) (value : string).

Record Query := mkQuery { qKind : string; qOps : list QueryOp }.

Definition NewQuery (kind : string) : Query := mkQuery kind [].
Definition derive (op : QueryOp) (q : Query) : Query :=
  mkQuery (qKind q) (qOps q ++ [op]).

(** A [*datastore.Iterator], as the answers it will give: [t.Next]
    returns [datastore.Done], or another error, or a key and a property
    list, after which [t.Cursor()] returns a cursor or an error. *)
Inductive Iter : Type :=
| IterDone
| IterError
| IterRow (intID : Z) (pl : PropertyList) (cursor : option Cursor) (rest : Iter).

(** The entry at position [n], and the entries left. *)
Fixpoint extract {A : Type} (n : nat) (l : list A) {struct l} : option (A * list A) :=
  match l with
  | [] => None
  | x :: r =>
      match n with
      | O => Some (x, r)
      | S n' =>
          match extract n' r with
          | Some (y, r') => Some (y, x :: r')
          | None => None
          end
      end
  end.

(** An order of the entries of a map: each number of the seed picks, among
    the entries not visited yet, the one visited next; the entries left
    when the seed ends come in the order they have.  Every seed gives a
    rearrangement of the entries, and every rearrangement has a seed
    ([shuffle_Permutation], [shuffle_complete]). *)
Fixpoint shuffle {A : Type} (seed : list nat) (l : list A) : list A :=
  match seed with
  | [] => l
  | n :: seed' =>
      match extract n l with
      | Some (x, r) => x :: shuffle seed' r
      | None => l
      end
  end.

(** The stored entities, by kind and numeric identifier. *)
Abbreviation Store := (gmap (string * Z) PropertyList).

(** What the surroundings of one request decide. *)
Record Env := mkEnv {
  (** [appengine.IsDevAppServer()] *)
  IsDevAppServer : bool;
  (** [getUserID(accessToken, client)]: the identity provider *)
  getUserID : string -> option string;
  (** [nowFunc().Unix()] *)
  nowUnix : Z;
  (** the call to [datastore.Put], [Get] or [Delete] of this request
      returns an error other than [ErrNoSuchEntity] *)
  backendErr : bool;
  (** [IntID()] of the key that [datastore.Put] returns for an incomplete
      key *)
  allocID : Z;
  (** [datastore.DecodeCursor] *)
  DecodeCursor : string -> option Cursor;
  (** [q.Run(c)] *)
  Run : Query -> Iter;
  (** the order in which [range] visits the entries of the map that
      [insert] or [update] hands to [mapToPlist], which Go leaves open *)
  rangeSeed : list nat
}.

(** The map as [range] visits it in [mapToPlist("", m)]. *)
Definition ranged (env : Env) (m : Doc) : Doc := shuffle (rangeSeed env) m.

(** What a CRUD function gives back: the response map ([None] is [nil])
    and the status code, or a run-time panic (a write into the [nil] map
    that [encoding/json] leaves for the body [null]). *)
Inductive Outcome : Type :=
| Returned (resp : option Doc) (code : Z)
| Panicked.

Definition StatusOK : Z := 200.
Definition StatusBadRequest : Z := 400.
Definition StatusUnauthorized : Z := 401.
Definition StatusNotFound : Z := 404.
Definition StatusMethodNotAllowed : Z := 405.
Definition StatusInternalServerError : Z := 500.

(** [fromJSON(c, r)]: the outcome of [json.NewDecoder(r).Decode(&m)] for
    [m] of type [map[string]interface{}]. *)
Inductive Body : Type :=
| BodyInvalid          (* [err != nil] *)
| BodyNull             (* the JSON value [null]: [m] is [nil], [err] is [nil] *)
| BodyDoc (d : Doc).   (* a JSON object *)

(** Modelled from the spec: the Property Store of section 6
    ([appengine/datastore] is not part of the sources).  [put] stores the
    property list under the key, in place of what was there; [get] gives
    the stored list or fails with NotFound ([None]); [delete] removes the
    entity, and fails with NotFound when there is none. *)
Definition dsPut (s : Store) (kind : string) (id : Z) (pl : PropertyList) : Store :=
  <[(kind, id) := pl]> s.

Definition dsGet (s : Store) (kind : string) (id : Z) : option PropertyList :=
  s !! (kind, id).

Definition dsDelete (s : Store) (kind : string) (id : Z) : option Store :=
  match s !! (kind, id) with
  | Some _ => Some (delete (kind, id) s)
  | None => None
  end.

(** ** The CRUD functions *)

Definition delete2 (env : Env) (s : Store) (kind : string) (id : Z) : Z * Store :=
  if backendErr env then (StatusInternalServerError, s)
  else match dsDelete s kind id with
       | None => (StatusNotFound, s)
       | Some s' => (StatusOK, s')
       end.

Definition get (env : Env) (s : Store) (kind : string) (id : Z) : Outcome :=
  if backendErr env then Returned None StatusInternalServerError
  else match dsGet s kind id with
       | None => Returned None StatusNotFound
       | Some pl =>
           let m := plistToMap pl id in
           Returned (Some (doc_set idKey (VInt id) m)) StatusOK
       end.

(** [insert(c, kind, r)].  [mapToPlist] ranges over the map after
    [_created] was written to it, in an order of the runtime's choosing
    ([ranged]); the map that is returned is the same map. *)
Definition insert (env : Env) (s : Store) (kind : string) (r : Body) : Outcome * Store :=
  match r with
  | BodyInvalid => (Returned None StatusInternalServerError, s)
  | BodyNull => (Panicked, s)
  | BodyDoc m =>
      let m := doc_set createdKey (VInt (nowUnix env)) m in
      let pl := mapToPlist "" (ranged env m) in
      if backendErr env then (Returned None StatusInternalServerError, s)
      else
        let id := allocID env in
        (Returned (Some (doc_set idKey (VInt id) m)) StatusOK, dsPut s kind id pl)
  end.

(** [update(c, kind, id, r)], with the order of [range] as in [insert]. *)
Definition update (env : Env) (s : Store) (kind : string) (id : Z) (r : Body)
  : Outcome * Store :=
  match r with
  | BodyInvalid => (Returned None StatusInternalServerError, s)
  | BodyNull => (Panicked, s)
  | BodyDoc m =>
      let m := doc_delete createdKey m in
      let m := doc_delete idKey m in
      let m := doc_set updatedKey (VInt (nowUnix env)) m in
      let pl := mapToPlist "" (ranged env m) in
      if backendErr env then (Returned None StatusInternalServerError, s)
      else (Returned (Some (doc_set idKey (VInt id) m)) StatusOK, dsPut s kind id pl)
  end.

(** ** Queries *)

Record filter := mkFilter { Key : string; FValue : string }.

Record userQuery := mkUserQuery {
  Limit : Z;
  StartCursor : string;
  EndCursor : string;
  Sort : string;
  Filters : list filter
}.

Definition withLimit (uq : userQuery) (q : Query) : Query :=
  if Limit uq =? 0 then q else derive (QLimit (Limit uq)) q.

Definition withSort (uq : userQuery) (q : Query) : Query :=
  if String.eqb (Sort uq) "" then q else derive (QOrder (Sort uq)) q.

Definition withStart (env : Env) (uq : userQuery) (q : Query) : Query :=
  match DecodeCursor env (StartCursor uq) with
  | Some c => derive (QStart c) q
  | None => q
  end.

Definition withEnd (env : Env) (uq : userQuery) (q : Query) : Query :=
  match DecodeCursor env (EndCursor uq) with
  | Some c => derive (QEnd c) q
  | None => q
  end.

Definition withFilters (uq : userQuery) (q : Query) : Query :=
  fold_left (fun q f => derive (QFilter (Key f) (FValue f)) q) (Filters uq) q.

(** The query that [list] builds before it runs it. *)
Definition buildQuery (env : Env) (kind : string) (uq : userQuery) : Query :=
  withFilters uq (withEnd env uq (withStart env uq (withSort uq (withLimit uq (NewQuery kind))))).

(** The loop of [list] over the iterator: the items and the last cursor,
    or [None] when [list] returns from inside the loop with status 500. *)
Fixpoint drain (t : Iter) (items : list Doc) (crs : Cursor)
  : option (list Doc * Cursor) :=
  match t with
  | IterDone => Some (items, crs)
  | IterError => None
  | IterRow k pl cur rest =>
      let m := plistToMap pl k in
      let items := items ++ [m] in
      match cur with
      | Some c => drain rest items c
      | None => None
      end
  end.

(** What [list] does once the query is built. *)
Definition runList (env : Env) (q : Query) : Outcome :=
  match drain (Run env q) [] zeroCursor with
  | None => Returned None StatusInternalServerError
  | Some (items, crs) =>
      Returned (Some [("items", VArr (List.map VDoc items));
                      ("nextStartToken", VStr crs)]) StatusOK
  end.

(** [list(c, kind, uq)] ([list] is taken by the type of lists) *)
Definition list_ (env : Env) (kind : string) (uq : userQuery) : Outcome :=
  runList env (buildQuery env kind uq).

(** ** Requests *)

Inductive PathError : Type :=
| invalidPath
| numError.   (* the error of [strconv.ParseInt] *)

(** [getKindAndID(path)] *)
Definition getKindAndID (path : string) : result PathError (string * Z) :=
  if negb (HasPrefix path "/") || String.eqb path "/" then Err invalidPath
  else
    match Split "/" (from 1 path) with
    | [kind] => Ok (kind, 0)
    | [kind; idStr] =>
        match ParseInt idStr with
        | None => Err numError
        | Some id => Ok (kind, id)
        end
    | _ => Err invalidPath
    end.

(** [*http.Request]: what [handle] reads of it.  [Form] is [r.Form] after
    [r.ParseForm()], [Authorization] the header of that name (empty when
    there is none). *)
Record Request := mkRequest {
  Method : string;
  Path : string;
  Form : gmap string (list string);
  Authorization : string;
  ReqBody : Body
}.

(** [r.Form.Get(key)] and [r.FormValue(key)] *)
Definition FormValue (r : Request) (key : string) : string :=
  match Form r !! key with
  | Some (v :: _) => v
  | _ => EmptyString
  end.

(** The loop of [newUserQuery] over the [where] parameters. *)
Fixpoint parseFilters (ws : list string) (acc : list filter) : option (list filter) :=
  match ws with
  | [] => Some acc
  | f :: r =>
      match Split "=" f with
      | [k; v] => parseFilters r (acc ++ [mkFilter k v])
      | _ => None
      end
  end.

(** [newUserQuery(r)]; [None] is a non-nil error.  [int] is taken to be
    64 bits wide. *)
Definition newUserQuery (r : Request) : option userQuery :=
  let lim :=
    if String.eqb (FormValue r "limit") "" then Some 0
    else ParseInt (FormValue r "limit") in
  match lim with
  | None => None
  | Some n =>
      match parseFilters (default [] (Form r !! "where")) [] with
      | None => None
      | Some fs =>
          Some (mkUserQuery n (FormValue r "start") (FormValue r "end")
                            (FormValue r "sort") fs)
      end
  end.

(** What [handle] writes: an error status ([http.Error]; the text of the
    message is left out), or status 200 with a JSON body or none, or the
    handler panics. *)
Inductive Response : Type :=
| HTTPError (code : Z)
| OKBody (resp : Doc)
| OKEmpty
| Panic.

(** The first part of [handle]: the user ID, or the error response. *)
Definition authenticate (env : Env) (r : Request) : result Response string :=
  if IsDevAppServer env then Ok (FormValue r "user_id")
  else
    let accessToken := FormValue r "access_token" in
    let accessToken :=
      if String.eqb accessToken "" then
        let h := Authorization r in
        if HasPrefix h "Bearer " then from 7 h else accessToken
      else accessToken in
    if String.eqb accessToken "" then Err (HTTPError StatusUnauthorized)
    else match getUserID env accessToken with
         | None => Err (HTTPError StatusInternalServerError)
         | Some userID => Ok userID
         end.

(** [fmt.Sprintf("%s--%s", userID, kind)] *)
Definition dsKindOf (userID kind : string) : string := userID +:+ "--" +:+ kind.

(** The end of [handle]: from [resp] and [errCode] to the response. *)
Definition respond (o : Outcome) : Response :=
  match o with
  | Panicked => Panic
  | Returned resp code =>
      if negb (code =? StatusOK) then HTTPError code
      else match resp with
           | Some (e :: m) => OKBody (e :: m)
           | _ => OKEmpty
           end
  end.

(** The operation that the two [switch] statements of [handle] select. *)
Inductive Op : Type :=
| OpInsert | OpList | OpGet | OpDelete | OpUpdate | OpUnsupported.

Definition route (method : string) (id : Z) : Op :=
  if id =? 0 then
    if String.eqb method "POST" then OpInsert
    else if String.eqb method "GET" then OpList
    else OpUnsupported
  else
    if String.eqb method "GET" then OpGet
    else if String.eqb method "DELETE" then OpDelete
    else if String.eqb method "POST" then OpUpdate
    else OpUnsupported.

(** The branches of the two [switch] statements. *)
Definition dispatch (env : Env) (s : Store) (dsKind : string) (id : Z) (r : Request)
  : Response * Store :=
  match route (Method r) id with
  | OpInsert =>
      let '(o, s') := insert env s dsKind (ReqBody r) in (respond o, s')
  | OpList =>
      match newUserQuery r with
      | None => (HTTPError StatusBadRequest, s)
      | Some uq => (respond (list_ env dsKind uq), s)
      end
  | OpGet => (respond (get env s dsKind id), s)
  | OpDelete =>
      let '(code, s') := delete2 env s dsKind id in (respond (Returned None code), s')
  | OpUpdate =>
      let '(o, s') := update env s dsKind id (ReqBody r) in (respond o, s')
  | OpUnsupported => (HTTPError StatusMethodNotAllowed, s)
  end.

(** [handle(c, w, r)] *)
Definition handle (env : Env) (s : Store) (r : Request) : Response * Store :=
  match authenticate env r with
  | Err resp => (resp, s)
  | Ok userID =>
      match getKindAndID (Path r) with
      | Err _ => (HTTPError StatusBadRequest, s)
      | Ok (kind, id) => dispatch env s (dsKindOf userID kind) id r
      end
  end.

(** ** Notions used to state the properties *)

(** The map [sub] refers to when the inner loop of [plistToMap] has gone
    over [parts], starting in [sub]. *)
Fixpoint descend (parts : list string) (sub : Doc) : Doc :=
  match parts with
  | [] => sub
  | p :: ps =>
      match doc_get p sub with
      | Some (VDoc ii) => descend ps ii
      | Some _ => descend ps sub
      | None => descend ps []
      end
  end.

(** No key twice. *)
Fixpoint uniq (l : list string) : bool :=
  match l with
  | [] => true
  | k :: r => negb (existsb (String.eqb k) r) && uniq r
  end.

(** The values that come back from the property list as they went in:
    scalars; arrays of two elements or more whose first element is not
    itself an array; and maps that are not empty, whose keys have no dot
    and whose values are of this kind again. *)
Fixpoint faithful (v : Value) : bool :=
  match v with
  | VDoc m =>
      negb (match m with [] => true | _ => false end)
      && uniq (List.map fst m)
      && forallb (fun kv => lacks "." (fst kv) && faithful (snd kv)) m
  | VArr (a :: _ :: _) => negb (isArr a)
  | VArr _ => false
  | _ => true
  end.

(** The same for the document itself, which may be empty. *)
Definition faithfulDoc (d : Doc) : bool :=
  uniq (keys d) && forallb (fun kv => lacks "." (fst kv) && faithful (snd kv)) d.

(** [q] put in front of the name of a property. *)
Definition prefixName (q : string) (p : Property) : Property :=
  mkProperty (q +:+ Name p) (PValue p) (Multiple p).


(** The iterator reports an error before it is done. *)
Fixpoint fails (t : Iter) : bool :=
  match t with
  | IterDone => false
  | IterError => true
  | IterRow _ _ None _ => true
  | IterRow _ _ (Some _) rest => fails rest
  end.

(** [rows] in front of the answers of [t]: each row is a key, a property
    list and a cursor that [t.Cursor()] returns without error. *)
Fixpoint after (rows : list (Z * PropertyList * Cursor)) (t : Iter) : Iter :=
  match rows with
  | [] => t
  | (k, pl, c) :: r => IterRow k pl (Some c) (after r t)
  end.


(** No array of exactly one element anywhere in the value. *)
Fixpoint noSingleton (v : Value) : bool :=
  match v with
  | VArr l => negb (Nat.eqb (List.length l) 1) && forallb noSingleton l
  | VDoc m => forallb (fun kv => noSingleton (snd kv)) m
  | _ => true
  end.

(** An environment for examples: the development server, the clock at
    [now], a backend that does not fail, assigns [newID] to a new entity,
    decodes no cursor and answers every query with [rows]; [range] visits
    a map in the order of its entries. *)
Definition devEnv (now newID : Z) (rows : Iter) : Env :=
  mkEnv true (fun _ => None) now false newID (fun _ => None) (fun _ => rows) [].

(** The same with another order of [range]. *)
Definition devEnvRanged (now newID : Z) (seed : list nat) : Env :=
  mkEnv true (fun _ => None) now false newID (fun _ => None) (fun _ => IterDone) seed.



(** ** The earlier codec ([datastore-api/datastoreapi.go]) *)

Module datastoreapi.

Definition kindKey : string := "_kind".

(** One round of the loop of [plistToMap]: the whole name is the key. *)
Definition addProperty (m : Doc) (p : Property) : Doc :=
  setLeaf (Name p) (PValue p) m.

(** [plistToMap(plist, k)]; [id] is [k.IntID()] *)
Definition plistToMap (plist : PropertyList) (id : Z) : Doc :=
  doc_set idKey (VInt id) (fold_left addProperty plist []).

(** The body of the loop of [mapToPlist]. *)
Definition entryToPlist (k : string) (v : Value) : PropertyList :=
  match v with
  | VArr l => List.map (fun mv => mkProperty k mv true) l
  | _ => [mkProperty k v false]
  end.

(** [mapToPlist(m)] *)
Definition mapToPlist (m : Doc) : PropertyList :=
  flat_map (fun kv => entryToPlist (fst kv) (snd kv)) m.

End datastoreapi.

(** ** More notions used to state properties *)

(** Neither a map nor an array. *)
Definition scalar (v : Value) : bool := negb (isDoc v) && negb (isArr v).

(** The property with another [Multiple] flag. *)
Definition setMultiple (b : bool) (p : Property) : Property :=
  mkProperty (Name p) (PValue p) b.

(** The response is an error status or a panic. *)
Definition isError (resp : Response) : bool :=
  match resp with
  | HTTPError _ | Panic => true
  | OKBody _ | OKEmpty => false
  end.

(** The values that come back from the earlier codec as they went in:
    everything but arrays of less than two elements and arrays that start
    with an array. *)
Definition flatValue (v : Value) : bool :=
  match v with
  | VArr (a :: _ :: _) => negb (isArr a)
  | VArr _ => false
  | _ => true
  end.

Definition flatDoc (d : Doc) : bool :=
  uniq (keys d) && forallb (fun kv => flatValue (snd kv)) d.

(** The filter as the [where] parameter it was read from. *)
Definition whereOf (f : filter) : string := Key f +:+ String "=" (FValue f).

(** The derivations that [list] applies for a user query, oldest first. *)
Definition cursorOp (mk : Cursor -> QueryOp) (c : option Cursor) : list QueryOp :=
  match c with Some c => [mk c] | None => [] end.

(** The rows of an iterator as [list] returns them. *)
Definition itemOf (row : Z * PropertyList * Cursor) : Value :=
  VDoc (plistToMap (snd (fst row)) (fst (fst row))).

(** The [Filter] derivations of a query, each as a [where] parameter. *)
Definition filterWheres (ops : list QueryOp) : list string :=
  flat_map (fun op => match op with
                      | QFilter k v => [k +:+ String "=" v]
                      | _ => []
                      end) ops.

(** * Proofs *)

(** ** Strings *)

Section StringFacts.

Lemma append_assoc (a b c : string) : (a +:+ b) +:+ c = a +:+ (b +:+ c).
Proof.
  induction a as [|x a IH]; [reflexivity|].
  change (String x ((a +:+ b) +:+ c) = String x (a +:+ (b +:+ c))).
  now rewrite IH.
Qed.

Lemma Split_nonempty sep s : Split sep s <> [].
Proof.
  destruct s as [|c r]; simpl; [discriminate|].
  destruct (Ascii.eqb c sep); [discriminate|].
  destruct (Split sep r); discriminate.
Qed.

Lemma Split_lacks sep s : lacks sep s = true -> Split sep s = [s].
Proof.
  induction s as [|c r IH]; simpl; [reflexivity|].
  intros H. apply andb_prop in H as [Hc Hr].
  apply negb_true_iff in Hc. rewrite Hc, (IH Hr). reflexivity.
Qed.

Lemma Split_cons sep s rest :
  lacks sep s = true ->
  Split sep (s +:+ String sep rest) = s :: Split sep rest.
Proof.
  induction s as [|c r IH]; simpl.
  - intros _. now rewrite Ascii.eqb_refl.
  - intros H. apply andb_prop in H as [Hc Hr].
    apply negb_true_iff in Hc. rewrite Hc, (IH Hr). reflexivity.
Qed.

Lemma Split_Join sep parts :
  parts <> [] -> Forall (fun s => lacks sep s = true) parts ->
  Split sep (Join sep parts) = parts.
Proof.
  induction parts as [|p ps IH]; [congruence|].
  intros _ Hall. inversion Hall as [|? ? Hp Hps]; subst.
  destruct ps as [|p' ps].
  - simpl. now apply Split_lacks.
  - change (Join sep (p :: p' :: ps)) with (p +:+ String sep (Join sep (p' :: ps))).
    rewrite Split_cons by assumption. f_equal. apply IH; [discriminate | assumption].
Qed.

Lemma removelast_cons {A} (x : A) l : l <> [] -> removelast (x :: l) = x :: removelast l.
Proof. destruct l; [congruence | reflexivity]. Qed.

Lemma last_cons {A} (x d : A) l : l <> [] -> List.last (x :: l) d = List.last l d.
Proof. destruct l; [congruence | reflexivity]. Qed.

End StringFacts.

(** ** Documents as maps *)

Section DocFacts.

Lemma doc_get_set_same k v m : doc_get k (doc_set k v m) = Some v.
Proof.
  induction m as [|[k' v'] m IH]; simpl.
  - now rewrite String.eqb_refl.
  - destruct (String.eqb k k') eqn:E; simpl; rewrite E; [reflexivity | exact IH].
Qed.

Lemma doc_get_set_other k k' v m : k <> k' -> doc_get k (doc_set k' v m) = doc_get k m.
Proof.
  intros Hne. induction m as [|[k0 v0] m IH]; simpl.
  - apply String.eqb_neq in Hne. now rewrite Hne.
  - destruct (String.eqb k' k0) eqn:E; simpl.
    + apply String.eqb_eq in E. subst k0.
      apply String.eqb_neq in Hne. now rewrite Hne.
    + now rewrite IH.
Qed.

Lemma doc_set_set k v w m : doc_set k v (doc_set k w m) = doc_set k v m.
Proof.
  induction m as [|[k' v'] m IH]; simpl.
  - now rewrite String.eqb_refl.
  - destruct (String.eqb k k') eqn:E; simpl; rewrite E; [reflexivity | now rewrite IH].
Qed.

Lemma doc_set_absent k v m : doc_get k m = None -> doc_set k v m = m ++ [(k, v)].
Proof.
  induction m as [|[k' v'] m IH]; simpl; [reflexivity|].
  destruct (String.eqb k k'); [discriminate|]. intros H. now rewrite IH.
Qed.

Lemma doc_get_app k m1 m2 :
  doc_get k (m1 ++ m2) = match doc_get k m1 with Some v => Some v | None => doc_get k m2 end.
Proof.
  induction m1 as [|[k' v'] m1 IH]; simpl; [reflexivity|].
  destruct (String.eqb k k'); [reflexivity | exact IH].
Qed.

Lemma doc_set_last k v w m :
  doc_get k m = None -> doc_set k v (m ++ [(k, w)]) = m ++ [(k, v)].
Proof.
  intros H. rewrite <- (doc_set_absent k w m H), doc_set_set. now apply doc_set_absent.
Qed.

Lemma doc_get_last k w m : doc_get k m = None -> doc_get k (m ++ [(k, w)]) = Some w.
Proof. intros H. rewrite doc_get_app, H. simpl. now rewrite String.eqb_refl. Qed.

Lemma doc_get_absent_iff k m : doc_get k m = None <-> existsb (String.eqb k) (keys m) = false.
Proof.
  induction m as [|[k' v'] m IH]; simpl; [tauto|].
  destruct (String.eqb k k'); simpl; [split; discriminate | exact IH].
Qed.

Lemma doc_get_delete_same k m : doc_get k (doc_delete k m) = None.
Proof.
  induction m as [|[k' v'] m IH]; simpl; [reflexivity|].
  destruct (String.eqb k k') eqn:E; simpl; [exact IH | now rewrite E].
Qed.

End DocFacts.

(** ** The codec *)

Section CodecFacts.

Lemma Value_nested_ind (P : Value -> Prop) :
  P VNull -> (forall b, P (VBool b)) -> (forall f, P (VNum f)) ->
  (forall i, P (VInt i)) -> (forall s, P (VStr s)) ->
  (forall l, Forall P l -> P (VArr l)) ->
  (forall m, Forall (fun kv => P (snd kv)) m -> P (VDoc m)) ->
  forall v, P v.
Proof.
  intros Hnull Hbool Hnum Hint Hstr Harr Hdoc.
  fix self 1. intros [ | b | f | i | s | l | m].
  - exact Hnull.
  - apply Hbool.
  - apply Hnum.
  - apply Hint.
  - apply Hstr.
  - apply Harr. induction l as [|a l IHl]; constructor; [apply self | exact IHl].
  - apply Hdoc. induction m as [|[k v] m IHm]; constructor; [apply self | exact IHm].
Qed.

Lemma mapToPlist_app prefix m1 m2 :
  mapToPlist prefix (m1 ++ m2) = mapToPlist prefix m1 ++ mapToPlist prefix m2.
Proof. unfold mapToPlist. apply flat_map_app. Qed.

Lemma mapToPlist_cons prefix k v m :
  mapToPlist prefix ((k, v) :: m) = entryToPlist prefix k v ++ mapToPlist prefix m.
Proof. reflexivity. Qed.

Lemma entryToPlist_doc prefix k m :
  entryToPlist prefix k (VDoc m) = mapToPlist (prefix +:+ k +:+ ".") m.
Proof. reflexivity. Qed.

Lemma decodeProps_app pl1 pl2 :
  decodeProps (pl1 ++ pl2) = fold_left addProperty pl2 (decodeProps pl1).
Proof. unfold decodeProps. apply fold_left_app. Qed.

(** A name without dot is written at the top of the map. *)
Lemma addProperty_plain m k v mult :
  lacks "." k = true -> addProperty m (mkProperty k v mult) = setLeaf k v m.
Proof. intros H. unfold addProperty. simpl. now rewrite (Split_lacks _ _ H). Qed.

(** A name [seg.rest] starts the walk at [seg]. *)
Lemma addProperty_dotted m seg p :
  lacks "." seg = true ->
  addProperty m (prefixName (seg +:+ ".") p)
  = walk (seg :: removelast (Split "." (Name p)))
         (List.last (Split "." (Name p)) EmptyString) (PValue p) m.
Proof.
  intros H. unfold addProperty, prefixName. simpl Name. simpl PValue.
  rewrite append_assoc.
  change ("." +:+ Name p) with (String "." (Name p)).
  rewrite (Split_cons _ _ _ H).
  rewrite removelast_cons, last_cons by apply Split_nonempty.
  reflexivity.
Qed.

(** The properties under [seg.] are decoded inside the map at [seg]. *)
Lemma fold_inside seg pl : forall sub ii,
  lacks "." seg = true ->
  doc_get seg sub = Some (VDoc ii) ->
  fold_left addProperty (List.map (prefixName (seg +:+ ".")) pl) sub
  = doc_set seg (VDoc (fold_left addProperty pl ii)) sub.
Proof.
  induction pl as [|p pl IH]; intros sub ii Hseg Hget; simpl.
  - clear Hseg. induction sub as [|[k' v'] sub IHs]; simpl in *; [discriminate|].
    destruct (String.eqb seg k'); [congruence|]. f_equal. now apply IHs.
  - rewrite (addProperty_dotted _ _ _ Hseg). simpl walk. rewrite Hget.
    rewrite (IH _ (addProperty ii p) Hseg) by apply doc_get_set_same.
    now rewrite doc_set_set.
Qed.

(** The first of them makes that map. *)
Lemma fold_fresh seg pl sub :
  lacks "." seg = true -> pl <> [] ->
  doc_get seg sub = None ->
  fold_left addProperty (List.map (prefixName (seg +:+ ".")) pl) sub
  = sub ++ [(seg, VDoc (decodeProps pl))].
Proof.
  intros Hseg Hne Hget. destruct pl as [|p pl]; [congruence|]. simpl.
  rewrite (addProperty_dotted _ _ _ Hseg). simpl walk. rewrite Hget.
  rewrite (fold_inside _ _ _ (addProperty [] p) Hseg) by apply doc_get_set_same.
  rewrite doc_set_set. now apply doc_set_absent.
Qed.

Lemma map_flat_map' {A B C} (f : B -> C) (g : A -> list B) l :
  List.map f (flat_map g l) = flat_map (fun x => List.map f (g x)) l.
Proof.
  induction l as [|x l IH]; simpl; [reflexivity|].
  now rewrite List.map_app, IH.
Qed.

(** A longer prefix only lengthens the names. *)
Lemma entryToPlist_prefix v : forall q prefix k,
  entryToPlist (q +:+ prefix) k v = List.map (prefixName q) (entryToPlist prefix k v).
Proof.
  induction v as [ | b | f | i | s | l _ | m IH] using Value_nested_ind;
    intros q prefix k; simpl;
    try (unfold prefixName; simpl; now rewrite append_assoc).
  - rewrite List.map_map. apply List.map_ext. intros a.
    unfold prefixName. simpl. now rewrite append_assoc.
  - rewrite map_flat_map'. rewrite append_assoc.
    induction IH as [|[k' v'] m Hv _ IHm]; simpl; [reflexivity|].
    now rewrite Hv, IHm.
Qed.

Lemma mapToPlist_prefix q prefix m :
  mapToPlist (q +:+ prefix) m = List.map (prefixName q) (mapToPlist prefix m).
Proof.
  unfold mapToPlist. rewrite map_flat_map'.
  induction m as [|[k v] m IH]; simpl; [reflexivity|].
  now rewrite entryToPlist_prefix, IH.
Qed.

Lemma append_empty_r s : s +:+ "" = s.
Proof.
  induction s as [|c s IH]; [reflexivity|].
  change (String c (s +:+ "") = String c s). now rewrite IH.
Qed.

Lemma entryToPlist_top_doc k m :
  entryToPlist "" k (VDoc m) = List.map (prefixName (k +:+ ".")) (mapToPlist "" m).
Proof.
  rewrite entryToPlist_doc, <- mapToPlist_prefix.
  change ("" +:+ k +:+ ".") with (k +:+ "."). now rewrite append_empty_r.
Qed.

(** The elements of an array come back one after the other. *)
Lemma fold_more_elements k l : forall acc l0,
  lacks "." k = true -> doc_get k acc = None ->
  fold_left addProperty (List.map (fun mv => mkProperty k mv true) l) (acc ++ [(k, VArr l0)])
  = acc ++ [(k, VArr (l0 ++ l))].
Proof.
  induction l as [|a l IH]; intros acc l0 Hk Hacc; simpl.
  - now rewrite app_nil_r.
  - rewrite (addProperty_plain _ _ _ _ Hk). unfold setLeaf.
    rewrite (doc_get_last _ _ _ Hacc), (doc_set_last _ _ _ _ Hacc).
    rewrite (IH _ _ Hk Hacc). now rewrite <- app_assoc.
Qed.

Lemma fold_array k a b l acc :
  lacks "." k = true -> doc_get k acc = None -> isArr a = false ->
  fold_left addProperty (List.map (fun mv => mkProperty k mv true) (a :: b :: l)) acc
  = acc ++ [(k, VArr (a :: b :: l))].
Proof.
  intros Hk Hacc Ha. simpl.
  rewrite !(addProperty_plain _ _ _ _ Hk). unfold setLeaf at 2. rewrite Hacc.
  rewrite (doc_set_absent _ _ _ Hacc). unfold setLeaf.
  rewrite (doc_get_last _ _ _ Hacc), (doc_set_last _ _ _ _ Hacc).
  destruct a; try discriminate; now rewrite (fold_more_elements _ _ _ _ Hk Hacc).
Qed.

Lemma faithful_emits v : forall prefix k,
  faithful v = true -> entryToPlist prefix k v <> [].
Proof.
  induction v as [ | b | f | i | s | l _ | m IH] using Value_nested_ind;
    intros prefix k Hf; simpl; try discriminate.
  - destruct l as [|a [|b l]]; simpl in *; discriminate.
  - destruct m as [|[k' v'] m]; [discriminate|].
    simpl in Hf. inversion IH as [|? ? Hv _]; subst.
    apply andb_prop in Hf as [_ Hf]. apply andb_prop in Hf as [Hf _].
    apply andb_prop in Hf as [_ Hf].
    simpl. intros E. apply app_eq_nil in E as [E _]. revert E. now apply Hv.
Qed.

End CodecFacts.

Section RoundTrip.

(** Decoding the properties of one entry adds the entry behind the
    others, when the maps below it come back unchanged. *)
Lemma fold_entry k v acc :
  (forall m, v = VDoc m -> decodeProps (mapToPlist "" m) = m) ->
  lacks "." k = true -> faithful v = true -> doc_get k acc = None ->
  fold_left addProperty (entryToPlist "" k v) acc = acc ++ [(k, v)].
Proof.
  intros Hsub Hk Hf Hacc.
  assert (Hscalar : forall mult, isArr v = false -> isDoc v = false ->
            fold_left addProperty [mkProperty k v mult] acc = acc ++ [(k, v)]).
  { intros mult _ _. simpl. rewrite (addProperty_plain _ _ _ _ Hk).
    unfold setLeaf. rewrite Hacc. now apply doc_set_absent. }
  destruct v as [ | b | f | i | s | l | m]; try (now apply Hscalar).
  - destruct l as [|a [|b l]]; try discriminate.
    simpl in Hf. apply negb_true_iff in Hf.
    now apply (fold_array k a b l acc).
  - rewrite entryToPlist_top_doc.
    rewrite fold_fresh; trivial.
    + now rewrite (Hsub m eq_refl).
    + intros E. apply (faithful_emits (VDoc m) "" k Hf).
      rewrite entryToPlist_top_doc, E. reflexivity.
Qed.

Lemma uniq_cons k l :
  uniq (k :: l) = true -> ~ In k l /\ uniq l = true.
Proof.
  simpl. intros H. apply andb_prop in H as [Hk Hl]. split; [|exact Hl].
  intros Hin. apply negb_true_iff in Hk.
  assert (existsb (String.eqb k) l = true) as E.
  { apply existsb_exists. exists k. split; [exact Hin | apply String.eqb_refl]. }
  congruence.
Qed.

Lemma fold_entries d :
  Forall (fun kv => forall m, snd kv = VDoc m -> faithful (snd kv) = true ->
                     decodeProps (mapToPlist "" m) = m) d ->
  forall acc,
  forallb (fun kv => lacks "." (fst kv) && faithful (snd kv)) d = true ->
  uniq (keys d) = true ->
  (forall k, In k (keys d) -> doc_get k acc = None) ->
  fold_left addProperty (mapToPlist "" d) acc = acc ++ d.
Proof.
  induction 1 as [|[k v] d Hv _ IH]; intros acc Hall Huniq Hfresh.
  - simpl. now rewrite app_nil_r.
  - rewrite mapToPlist_cons, fold_left_app.
    simpl in Hall. apply andb_prop in Hall as [Hkv Hall].
    apply andb_prop in Hkv as [Hk Hf].
    apply uniq_cons in Huniq as [Hnotin Huniq].
    rewrite (fold_entry k v acc (fun m E => Hv m E Hf) Hk Hf) by (apply Hfresh; now left).
    rewrite (IH _ Hall Huniq).
    + now rewrite <- app_assoc.
    + intros k' Hin. rewrite doc_get_app, (Hfresh k') by now right.
      simpl. destruct (String.eqb k' k) eqn:E; [|reflexivity].
      apply String.eqb_eq in E. subst k'. contradiction.
Qed.

Lemma decode_faithful v :
  forall m, v = VDoc m -> faithful v = true -> decodeProps (mapToPlist "" m) = m.
Proof.
  induction v as [ | b | f | i | s | l _ | m0 IH] using Value_nested_ind;
    intros m E Hf; try discriminate.
  injection E as <-. simpl in Hf.
  apply andb_prop in Hf as [Hf Hall]. apply andb_prop in Hf as [_ Huniq].
  unfold decodeProps.
  now rewrite (fold_entries m0 IH []).
Qed.

End RoundTrip.

(** ** Round trip (C1) *)

Example scenario4_encode :
  mapToPlist "" [("address", VDoc [("city", VStr "X")])]
  = [mkProperty "address.city" (VStr "X") false].
Proof. reflexivity. Qed.

Example scenario4_decode :
  plistToMap [mkProperty "address.city" (VStr "X") false] 7
  = [("address", VDoc [("city", VStr "X")]); ("_id", VInt 7)].
Proof. reflexivity. Qed.

(** C1, as stated, fails: the document [{"tags": []}] has no array of
    length 1, yet decoding its encoding gives a document without [tags],
    while the document extended with [_id] has it. *)
Lemma round_trip_loses_empty_array :
  noSingleton (VDoc [("tags", VArr [])]) = true
  /\ doc_get "tags" (plistToMap (mapToPlist "" [("tags", VArr [])]) 7) = None
  /\ doc_get "tags" (doc_set idKey (VInt 7) [("tags", VArr [])]) = Some (VArr []).
Proof. repeat split. Qed.

Lemma decode_encode (d : Doc) (id : Z) :
  faithfulDoc d = true ->
  plistToMap (mapToPlist "" d) id = doc_set idKey (VInt id) d.
Proof.
  unfold faithfulDoc, plistToMap, decodeProps. intros H.
  apply andb_prop in H as [Huniq Hall].
  rewrite (fold_entries d); trivial.
  apply Forall_forall. intros [k v] _ m E Hf. exact (decode_faithful _ m E Hf).
Qed.

(** The other ways in which a document does not come back: a key with a
    dot becomes a nested document, an empty nested document disappears,
    and an array whose first element is an array is flattened. *)
Example round_trip_other_losses :
  plistToMap (mapToPlist "" [("a.b", VInt 1)]) 7 = [("a", VDoc [("b", VInt 1)]); ("_id", VInt 7)]
  /\ plistToMap (mapToPlist "" [("a", VDoc [])]) 7 = [("_id", VInt 7)]
  /\ plistToMap (mapToPlist "" [("a", VArr [VArr [VInt 1; VInt 2]; VInt 3])]) 7
     = [("a", VArr [VInt 1; VInt 2; VInt 3]); ("_id", VInt 7)].
Proof. repeat split. Qed.

(** C1, amended: for every document whose keys are unique and, at every
    depth, free of dots, whose arrays have two elements or more with a
    first element that is not an array, and whose nested documents are
    not empty, decoding the encoded property list with [id] yields the
    document with [_id] set to [id]. *)
Theorem codec_round_trip (d : Doc) (id : Z) :
  faithfulDoc d = true ->
  plistToMap (mapToPlist "" d) id = doc_set idKey (VInt id) d.
Proof. exact (decode_encode d id). Qed.

Lemma codec_round_trip_witness :
  plistToMap
    (mapToPlist ""
       [("name", VStr "Alice"); ("tags", VArr [VStr "a"; VStr "b"]);
        ("address", VDoc [("city", VStr "X"); ("zip", VNum (num 12345))])]) 1
  = [("name", VStr "Alice"); ("tags", VArr [VStr "a"; VStr "b"]);
     ("address", VDoc [("city", VStr "X"); ("zip", VNum (num 12345))]);
     ("_id", VInt 1)].
Proof.
  exact (codec_round_trip
           [("name", VStr "Alice"); ("tags", VArr [VStr "a"; VStr "b"]);
            ("address", VDoc [("city", VStr "X"); ("zip", VNum (num 12345))])]
           1 eq_refl).
Defined.

(** ** Arrays (C7) *)

(** C7: in the encoding of a map an entry [k] whose value is an array [l]
    stands for exactly one property per element of [l], in order, each
    named [prefix + k] and flagged [Multiple]; between the properties of
    the entries before it and those of the entries after it.  For the
    empty array these are no properties at all: the encoding, and so the
    document decoded from it, is that of the map without the entry. *)
Theorem array_entry_properties (prefix k : string) (l : list Value) (m1 m2 : Doc) (id : Z) :
  mapToPlist prefix (m1 ++ (k, VArr l) :: m2)
  = mapToPlist prefix m1
    ++ List.map (fun mv => mkProperty (prefix +:+ k) mv true) l
    ++ mapToPlist prefix m2
  /\ List.length (List.map (fun mv => mkProperty (prefix +:+ k) mv true) l) = List.length l
  /\ mapToPlist prefix (m1 ++ (k, VArr []) :: m2) = mapToPlist prefix (m1 ++ m2)
  /\ plistToMap (mapToPlist "" (m1 ++ (k, VArr []) :: m2)) id
     = plistToMap (mapToPlist "" (m1 ++ m2)) id.
Proof.
  assert (E : forall p, mapToPlist p (m1 ++ (k, VArr []) :: m2) = mapToPlist p (m1 ++ m2)).
  { intros p. now rewrite !mapToPlist_app, mapToPlist_cons. }
  repeat split.
  - now rewrite mapToPlist_app, mapToPlist_cons.
  - apply List.length_map.
  - apply E.
  - now rewrite E.
Qed.

Example empty_array_field_absent :
  plistToMap (mapToPlist "" [("name", VStr "Alice"); ("tags", VArr [])]) 3
  = [("name", VStr "Alice"); ("_id", VInt 3)].
Proof. reflexivity. Qed.

(** ** Conflicts between a scalar and a dotted name (C2) *)

Section Conflict.

Lemma walk_skips seg x rest leaf v : forall pre m,
  doc_get seg (descend pre m) = Some x -> isDoc x = false ->
  walk (pre ++ seg :: rest) leaf v m = walk (pre ++ rest) leaf v m.
Proof.
  induction pre as [|p pre IH]; intros m Hget Hx; simpl in *.
  - rewrite Hget. destruct x; try reflexivity. discriminate.
  - destruct (doc_get p m) as [[ | b | f | i | s | l | ii]|]; try (now apply IH);
      now rewrite IH.
Qed.

Lemma setLeaf_other k leaf v sub : k <> leaf -> doc_get k (setLeaf leaf v sub) = doc_get k sub.
Proof.
  intros Hne. unfold setLeaf.
  destruct (doc_get leaf sub) as [[ | b | f | i | s | l | ii]|];
    now apply doc_get_set_other.
Qed.

Lemma walk_other k leaf v : forall ps sub,
  ~ In k (ps ++ [leaf]) -> doc_get k (walk ps leaf v sub) = doc_get k sub.
Proof.
  induction ps as [|p ps IH]; intros sub Hnot; simpl in *.
  - apply setLeaf_other. intuition.
  - assert (k <> p) by intuition. assert (~ In k (ps ++ [leaf])) by intuition.
    destruct (doc_get p sub) as [[ | b | f | i | s | l | ii]|];
      try (now apply IH); now apply doc_get_set_other.
Qed.

Lemma addProperty_Join m parts leaf v mult :
  Forall (fun s => lacks "." s = true) (parts ++ [leaf]) ->
  addProperty m (mkProperty (Join "." (parts ++ [leaf])) v mult) = walk parts leaf v m.
Proof.
  intros H. unfold addProperty. simpl Name. simpl PValue.
  rewrite Split_Join; [|now destruct parts|exact H].
  now rewrite removelast_last, last_last.
Qed.

Lemma doc_get_id pl id : doc_get idKey (plistToMap pl id) = Some (VInt id).
Proof. apply doc_get_set_same. Qed.

End Conflict.

(** C2, as stated, fails.  With [a = 1] stored first, the property [a.b]
    is not dropped: its value lands under [b]; and the property [a.a]
    changes what is stored at [a]. *)
Lemma conflicting_property_not_dropped :
  doc_get "b" (plistToMap [mkProperty "a" (VInt 1) false] 7) = None
  /\ doc_get "b" (plistToMap [mkProperty "a" (VInt 1) false;
                              mkProperty "a.b" (VInt 2) false] 7) = Some (VInt 2)
  /\ doc_get "a" (plistToMap [mkProperty "a" (VInt 1) false;
                              mkProperty "a.a" (VInt 2) false] 7)
     = Some (VArr [VInt 1; VInt 2]).
Proof. repeat split. Qed.

(** C2, amended: when the walk along a property's name reaches a segment
    [seg] that already holds a value [x] that is not a Document, decoding
    goes on without failing, and the segment is skipped: the property is
    decoded as if [seg] were not in its name, so its value is stored
    under the rest of the name in the Document that holds [x].  After
    that write the Document still holds [x] at [seg], unless [seg] occurs
    again in the rest of the name. *)
Theorem conflict_segment_skipped
    (pl1 pl2 : PropertyList) (pre : list string) (seg : string) (rest : list string)
    (leaf : string) (v x : Value) (mult : bool) (id : Z) :
  Forall (fun s => lacks "." s = true) (pre ++ seg :: rest ++ [leaf]) ->
  doc_get seg (descend pre (decodeProps pl1)) = Some x ->
  isDoc x = false ->
  plistToMap (pl1 ++ mkProperty (Join "." (pre ++ seg :: rest ++ [leaf])) v mult :: pl2) id
  = plistToMap (pl1 ++ mkProperty (Join "." (pre ++ rest ++ [leaf])) v mult :: pl2) id
  /\ doc_get idKey
       (plistToMap (pl1 ++ mkProperty (Join "." (pre ++ seg :: rest ++ [leaf])) v mult :: pl2) id)
     = Some (VInt id)
  /\ walk (seg :: rest) leaf v (descend pre (decodeProps pl1))
     = walk rest leaf v (descend pre (decodeProps pl1))
  /\ (~ In seg (rest ++ [leaf]) ->
      doc_get seg (walk (seg :: rest) leaf v (descend pre (decodeProps pl1))) = Some x).
Proof.
  intros Hdots Hget Hx.
  assert (Hskip : walk (seg :: rest) leaf v (descend pre (decodeProps pl1))
                  = walk rest leaf v (descend pre (decodeProps pl1))).
  { simpl. rewrite Hget. destruct x; try reflexivity. discriminate. }
  repeat split.
  - unfold plistToMap. f_equal. rewrite !decodeProps_app. simpl. f_equal.
    assert (Hdots' : Forall (fun s => lacks "." s = true) (pre ++ rest ++ [leaf])).
    { apply Forall_app in Hdots as [H1 H2]. inversion H2; subst.
      apply Forall_app. now split. }
    replace (pre ++ seg :: rest ++ [leaf]) with ((pre ++ seg :: rest) ++ [leaf]) in *
      by now rewrite <- app_assoc.
    replace (pre ++ rest ++ [leaf]) with ((pre ++ rest) ++ [leaf]) in *
      by now rewrite <- app_assoc.
    rewrite !addProperty_Join by assumption.
    now apply (walk_skips seg x).
  - apply doc_get_id.
  - exact Hskip.
  - intros Hnot. rewrite Hskip, walk_other by exact Hnot. exact Hget.
Qed.

Lemma conflict_segment_skipped_witness :
  plistToMap ([mkProperty "a" (VInt 1) false]
              ++ mkProperty (Join "." ([] ++ "a" :: ["c"] ++ ["b"])) (VInt 2) false :: []) 7
  = plistToMap ([mkProperty "a" (VInt 1) false]
                ++ mkProperty (Join "." ([] ++ ["c"] ++ ["b"])) (VInt 2) false :: []) 7
  /\ doc_get "a" (walk ("a" :: ["c"]) "b" (VInt 2)
                       (descend [] (decodeProps [mkProperty "a" (VInt 1) false])))
     = Some (VInt 1).
Proof.
  pose proof (conflict_segment_skipped
                [mkProperty "a" (VInt 1) false] [] [] "a" ["c"] "b" (VInt 2) (VInt 1) false 7)
    as H.
  destruct H as (H1 & _ & _ & H4).
  - repeat constructor.
  - reflexivity.
  - reflexivity.
  - split; [exact H1|]. apply H4. simpl. intros [E|[E|[]]]; discriminate.
Defined.

(** ** The CRUD functions (C3, C4, C5, C6) *)

Section FaithfulFacts.

Lemma keys_set x k v m :
  existsb (String.eqb x) (keys (doc_set k v m))
  = existsb (String.eqb x) (keys m) || String.eqb x k.
Proof.
  unfold keys. induction m as [|[k' v'] m IH]; simpl.
  - now rewrite orb_false_r.
  - destruct (String.eqb k k') eqn:E; simpl.
    + apply String.eqb_eq in E. subst k'.
      destruct (String.eqb x k); simpl; [reflexivity | now rewrite orb_false_r].
    + rewrite IH. now rewrite orb_assoc.
Qed.

Lemma keys_delete x k m :
  existsb (String.eqb x) (keys (doc_delete k m)) = true ->
  existsb (String.eqb x) (keys m) = true.
Proof.
  unfold keys. induction m as [|[k' v'] m IH]; simpl; [trivial|].
  destruct (String.eqb k k'); simpl.
  - intros H. rewrite (IH H). apply orb_true_r.
  - destruct (String.eqb x k'); simpl; [trivial | exact IH].
Qed.

Lemma faithfulDoc_delete k m : faithfulDoc m = true -> faithfulDoc (doc_delete k m) = true.
Proof.
  unfold faithfulDoc, keys. induction m as [|[k' v'] m IH]; simpl; [trivial|].
  intros H. apply andb_prop in H as [Hu Hall].
  apply andb_prop in Hu as [Hk Hu]. apply andb_prop in Hall as [Hkv Hall].
  assert (IH' := IH (andb_true_intro (conj Hu Hall))).
  destruct (String.eqb k k'); [exact IH'|]. simpl.
  apply andb_prop in IH' as [Hu' Hall']. rewrite Hu', Hall', Hkv. simpl.
  rewrite !andb_true_r. apply negb_true_iff. apply negb_true_iff in Hk.
  destruct (existsb (String.eqb k') (List.map fst (doc_delete k m))) eqn:E; [|reflexivity].
  apply (keys_delete k' k m) in E. unfold keys in E. congruence.
Qed.

Lemma faithfulDoc_set k v m :
  lacks "." k = true -> faithful v = true ->
  faithfulDoc m = true -> faithfulDoc (doc_set k v m) = true.
Proof.
  unfold faithfulDoc, keys. intros Hk Hv. induction m as [|[k' v'] m IH]; simpl.
  - intros _. now rewrite Hk, Hv.
  - intros H. apply andb_prop in H as [Hu Hall].
    apply andb_prop in Hu as [Hk' Hu]. apply andb_prop in Hall as [Hkv Hall].
    destruct (String.eqb k k') eqn:E; simpl.
    + apply String.eqb_eq in E. subst k'.
      rewrite Hk', Hu, Hall, Hk, Hv. reflexivity.
    + assert (IH' := IH (andb_true_intro (conj Hu Hall))).
      apply andb_prop in IH' as [Hu' Hall']. rewrite Hu', Hall', Hkv.
      rewrite !andb_true_r. apply negb_true_iff.
      pose proof (keys_set k' k v m) as K. unfold keys in K. rewrite K.
      apply negb_true_iff in Hk'. rewrite Hk'. simpl.
      rewrite String.eqb_sym. exact E.
Qed.

End FaithfulFacts.

(** ** The order of [range] *)

Section RangeFacts.

Lemma extract_Permutation {A} (l : list A) : forall n x r,
  extract n l = Some (x, r) -> Permutation l (x :: r).
Proof.
  induction l as [|a l IH]; intros n x r H; simpl in H; [discriminate H|].
  destruct n as [|n].
  - injection H as <- <-. apply Permutation_refl.
  - destruct (extract n l) as [[y r']|] eqn:E; [|discriminate H].
    injection H as <- <-.
    apply Permutation_trans with (a :: y :: r').
    + apply perm_skip. now apply (IH n).
    + apply perm_swap.
Qed.

(** Every seed rearranges the entries. *)
Lemma shuffle_Permutation {A} (seed : list nat) : forall l : list A,
  Permutation (shuffle seed l) l.
Proof.
  induction seed as [|n seed IH]; intros l; simpl; [apply Permutation_refl|].
  destruct (extract n l) as [[x r]|] eqn:E; [|apply Permutation_refl].
  apply Permutation_sym. apply Permutation_trans with (x :: r).
  - now apply (extract_Permutation l n).
  - apply perm_skip. apply Permutation_sym, IH.
Qed.

Lemma In_extract {A} (x : A) l : In x l -> exists n r, extract n l = Some (x, r).
Proof.
  induction l as [|a l IH]; intros H; [contradiction|].
  destruct H as [-> | H].
  - now exists O, l.
  - destruct (IH H) as (n & r & E). exists (S n), (a :: r). simpl. now rewrite E.
Qed.

(** Every rearrangement of the entries has a seed. *)
Lemma shuffle_complete {A} (l' : list A) : forall l,
  Permutation l' l -> exists seed, shuffle seed l = l'.
Proof.
  induction l' as [|x l' IH]; intros l H.
  - apply Permutation_nil in H. subst l. now exists [].
  - assert (Hin : In x l) by (apply (Permutation_in _ H); now left).
    destruct (In_extract x l Hin) as (n & r & E).
    assert (Hr : Permutation l' r).
    { apply (Permutation_cons_inv (a := x)).
      apply Permutation_trans with l; [exact H|]. now apply (extract_Permutation l n). }
    destruct (IH r Hr) as [seed Hs].
    exists (n :: seed). simpl. now rewrite E, Hs.
Qed.

Lemma uniq_NoDup l : uniq l = true <-> List.NoDup l.
Proof.
  induction l as [|k l IH]; simpl.
  - split; [constructor | reflexivity].
  - rewrite andb_true_iff, negb_true_iff, IH. split.
    + intros [Hk Hl]. constructor; [|exact Hl].
      intros Hin. assert (existsb (String.eqb k) l = true) as E.
      { apply existsb_exists. exists k. split; [exact Hin | apply String.eqb_refl]. }
      congruence.
    + intros H. inversion H as [|? ? Hk Hl]; subst. split; [|exact Hl].
      destruct (existsb (String.eqb k) l) eqn:E; [|reflexivity].
      apply existsb_exists in E as (k' & Hin & Ek). apply String.eqb_eq in Ek.
      subst k'. contradiction.
Qed.

Lemma uniq_keys_Permutation (m m' : Doc) :
  Permutation m m' -> uniq (keys m) = true -> uniq (keys m') = true.
Proof.
  intros H Hu. apply uniq_NoDup. apply uniq_NoDup in Hu.
  apply (Stdlib.Sorting.Permutation.Permutation_NoDup (l := keys m)); [|exact Hu].
  unfold keys. now apply Permutation_map.
Qed.

Lemma faithfulDoc_Permutation (m m' : Doc) :
  Permutation m m' -> faithfulDoc m = true -> faithfulDoc m' = true.
Proof.
  unfold faithfulDoc. intros H Hf. apply andb_prop in Hf as [Hu Hall].
  apply andb_true_intro. split; [now apply (uniq_keys_Permutation m)|].
  apply forallb_forall. intros kv Hin.
  rewrite forallb_forall in Hall. apply Hall.
  apply (Permutation_in _ (Permutation_sym H)). exact Hin.
Qed.

Lemma doc_get_In k v (m : Doc) :
  uniq (keys m) = true -> (doc_get k m = Some v <-> In (k, v) m).
Proof.
  unfold keys. induction m as [|[k' v'] m IH]; intros Hu; simpl.
  - split; [intros F; discriminate F | intros F; contradiction].
  - apply uniq_cons in Hu as [Hnot Hu]. destruct (String.eqb k k') eqn:E.
    + apply String.eqb_eq in E. subst k'. split.
      * intros H. injection H as ->. now left.
      * intros [H | H]; [now injection H as -> |].
        exfalso. apply Hnot. apply in_map_iff. now exists (k, v).
    + apply String.eqb_neq in E. rewrite (IH Hu). split; [now right|].
      intros [H | H]; [injection H as -> _; congruence | exact H].
Qed.

(** With unique keys, the order of the entries does not change what the
    map holds. *)
Lemma doc_get_Permutation k (m m' : Doc) :
  Permutation m m' -> uniq (keys m) = true -> doc_get k m' = doc_get k m.
Proof.
  intros H Hu. pose proof (uniq_keys_Permutation m m' H Hu) as Hu'.
  destruct (doc_get k m) as [v|] eqn:E.
  - apply (doc_get_In k v m' Hu'). apply (Permutation_in _ H).
    now apply (doc_get_In k v m Hu).
  - destruct (doc_get k m') as [v'|] eqn:E'; [|reflexivity].
    apply (doc_get_In k v' m' Hu') in E'.
    apply (Permutation_in _ (Permutation_sym H)) in E'.
    apply (doc_get_In k v' m Hu) in E'. congruence.
Qed.

Lemma uniq_doc_set k v (m : Doc) :
  uniq (keys m) = true -> uniq (keys (doc_set k v m)) = true.
Proof.
  induction m as [|[k' v'] m IH]; intros Hu; [reflexivity|].
  pose proof Hu as Hu0. apply uniq_cons in Hu as [_ Hu]. simpl.
  destruct (String.eqb k k') eqn:E; [exact Hu0|].
  change (uniq (k' :: keys (doc_set k v m)) = true). simpl.
  rewrite keys_set, (IH Hu).
  change (uniq (k' :: keys m) = true) in Hu0. simpl in Hu0.
  apply andb_prop in Hu0 as [Hk _]. apply negb_true_iff in Hk. rewrite Hk.
  rewrite String.eqb_sym, E. reflexivity.
Qed.

Lemma ranged_Permutation env m : Permutation (ranged env m) m.
Proof. apply shuffle_Permutation. Qed.

Lemma get_after_put env s kind id pl :
  backendErr env = false ->
  get env (dsPut s kind id pl) kind id = Returned (Some (plistToMap pl id)) StatusOK.
Proof.
  intros Hok. unfold get, dsGet, dsPut. rewrite Hok, lookup_insert_eq.
  unfold plistToMap. now rewrite doc_set_set.
Qed.

(** A document that the codec gives back comes back from any order of
    [range] as the same map: unique keys, and under every key the value
    that the document holds, with [_id] set. *)
Lemma decode_any_order (m m' : Doc) (id : Z) :
  faithfulDoc m = true -> Permutation m' m ->
  uniq (keys (plistToMap (mapToPlist "" m') id)) = true
  /\ forall k, doc_get k (plistToMap (mapToPlist "" m') id)
               = doc_get k (doc_set idKey (VInt id) m).
Proof.
  intros Hf Hp.
  pose proof (faithfulDoc_Permutation m m' (Permutation_sym Hp) Hf) as Hf'.
  rewrite (decode_encode m' id Hf').
  assert (Hu : uniq (keys m) = true).
  { unfold faithfulDoc in Hf. now apply andb_prop in Hf as [Hu _]. }
  pose proof (uniq_keys_Permutation m m' (Permutation_sym Hp) Hu) as Hu'.
  split; [now apply uniq_doc_set|].
  intros k. destruct (String.eqb k idKey) eqn:E.
  - apply String.eqb_eq in E. subst k. now rewrite !doc_get_set_same.
  - apply String.eqb_neq in E. rewrite !doc_get_set_other by exact E.
    now apply (doc_get_Permutation k m m' (Permutation_sym Hp)).
Qed.

End RangeFacts.

(** The two orders of [range] for the body [{"_updated.x": 5}]: with the
    dotted key first the stamped [_updated] joins the nested document in
    an array; with [_updated] first the dotted key lands under [x]. *)
Example update_range_orders :
  get (devEnv 300 1 IterDone)
      (snd (update (devEnvRanged 200 1 []) ∅ "k" 5 (BodyDoc [("_updated.x", VInt 5)]))) "k" 5
  = Returned (Some [("_updated", VArr [VDoc [("x", VInt 5)]; VInt 200]); ("_id", VInt 5)])
      StatusOK
  /\ get (devEnv 300 1 IterDone)
         (snd (update (devEnvRanged 200 1 [1%nat]) ∅ "k" 5 (BodyDoc [("_updated.x", VInt 5)])))
         "k" 5
     = Returned (Some [("_updated", VInt 200); ("x", VInt 5); ("_id", VInt 5)]) StatusOK.
Proof. split; reflexivity. Qed.

(** C3, as stated, fails where the codec loses a field: after a
    successful update with [{"name": "Bob", "tags": []}] the document
    that [get] returns has no [tags], a field of the new body. *)
Lemma update_then_get_misses_field :
  fst (update (devEnv 200 1 IterDone) ∅ "u1--contact" 5
         (BodyDoc [("name", VStr "Bob"); ("tags", VArr [])]))
  = Returned (Some [("name", VStr "Bob"); ("tags", VArr []);
                    ("_updated", VInt 200); ("_id", VInt 5)]) StatusOK
  /\ get (devEnv 201 1 IterDone)
         (snd (update (devEnv 200 1 IterDone) ∅ "u1--contact" 5
                 (BodyDoc [("name", VStr "Bob"); ("tags", VArr [])])))
         "u1--contact" 5
     = Returned (Some [("name", VStr "Bob"); ("_updated", VInt 200); ("_id", VInt 5)])
         StatusOK.
Proof. split; reflexivity. Qed.

(** C3, amended: [update] is a full replace.  When it succeeds, the
    stored property list is exactly the encoding of the new body without
    [_created] and [_id] and with [_updated] stamped, its entries taken
    in the order in which [range] visits them; it is the same whatever
    was stored before, and no other entity changes; a subsequent [get]
    returns the decoding of that list.  Whenever the new body comes back
    from the codec unchanged ([faithfulDoc]), that is, whatever the order
    of [range], exactly the fields of the new body, with [_updated] and
    [_id]. *)
Theorem update_full_replace
    (env env' : Env) (s : Store) (kind : string) (id : Z) (newBody : Doc) :
  backendErr env = false ->
  backendErr env' = false ->
  let m := doc_set updatedKey (VInt (nowUnix env))
             (doc_delete idKey (doc_delete createdKey newBody)) in
  let s' := snd (update env s kind id (BodyDoc newBody)) in
  fst (update env s kind id (BodyDoc newBody))
  = Returned (Some (doc_set idKey (VInt id) m)) StatusOK
  /\ (exists m', Permutation m' m
        /\ s' !! (kind, id) = Some (mapToPlist "" m')
        /\ get env' s' kind id = Returned (Some (plistToMap (mapToPlist "" m') id)) StatusOK)
  /\ (forall k i, (k, i) <> (kind, id) -> s' !! (k, i) = s !! (k, i))
  /\ (forall s0, snd (update env s0 kind id (BodyDoc newBody)) !! (kind, id)
                 = s' !! (kind, id))
  /\ (faithfulDoc newBody = true ->
      exists d, get env' s' kind id = Returned (Some d) StatusOK
                /\ uniq (keys d) = true
                /\ forall k, doc_get k d = doc_get k (doc_set idKey (VInt id) m)).
Proof.
  intros Hok Hok' m s'. subst s'. unfold update. fold m. rewrite Hok.
  cbn beta iota delta [fst snd].
  pose proof (get_after_put env' s kind id (mapToPlist "" (ranged env m)) Hok') as Hget.
  repeat split.
  - exists (ranged env m). split; [apply ranged_Permutation|].
    split; [apply lookup_insert_eq | exact Hget].
  - intros k i Hne. now apply lookup_insert_ne.
  - intros s0. unfold dsPut. now rewrite !lookup_insert_eq.
  - intros Hf. eexists. split; [exact Hget|].
    apply decode_any_order; [|apply ranged_Permutation].
    subst m. apply faithfulDoc_set; [reflexivity | reflexivity |].
    now do 2 apply faithfulDoc_delete.
Qed.

Lemma update_full_replace_witness :
  exists d,
    get (devEnv 201 1 IterDone)
        (snd (update (devEnvRanged 200 1 [1%nat])
                {[ ("u1--contact"%string, 5) :=
                     [mkProperty "name" (VStr "Alice") false;
                      mkProperty "tags" (VStr "a") true; mkProperty "tags" (VStr "b") true;
                      mkProperty "_created" (VInt 100) false] ]}
                "u1--contact" 5 (BodyDoc [("name", VStr "Bob")])))
        "u1--contact" 5
    = Returned (Some d) StatusOK
    /\ uniq (keys d) = true
    /\ forall k,
         doc_get k d
         = doc_get k
             (doc_set idKey (VInt 5)
                (doc_set updatedKey (VInt (nowUnix (devEnvRanged 200 1 [1%nat])))
                   (doc_delete idKey (doc_delete createdKey [("name", VStr "Bob")])))).
Proof.
  apply (update_full_replace (devEnvRanged 200 1 [1%nat]) (devEnv 201 1 IterDone));
    reflexivity.
Defined.





(** C5 does not hold of the code ([update] never reads the stored
    entity, as its TODO says): an entity stored with [_created = 100]
    has no [_created] after an update; [get] shows [_created] before and
    not after. *)
Theorem update_forgets_created :
  let s : Store :=
    {[ ("u1--contact"%string, 1) :=
         [mkProperty "name" (VStr "Alice") false; mkProperty "_created" (VInt 100) false] ]} in
  let s' := snd (update (devEnv 200 2 IterDone) s "u1--contact" 1
                   (BodyDoc [("name", VStr "Bob")])) in
  get (devEnv 150 2 IterDone) s "u1--contact" 1
  = Returned (Some [("name", VStr "Alice"); ("_created", VInt 100); ("_id", VInt 1)]) StatusOK
  /\ s' !! ("u1--contact"%string, 1)
     = Some [mkProperty "name" (VStr "Bob") false; mkProperty "_updated" (VInt 200) false]
  /\ get (devEnv 250 2 IterDone) s' "u1--contact" 1
     = Returned (Some [("name", VStr "Bob"); ("_updated", VInt 200); ("_id", VInt 1)]) StatusOK.
Proof. repeat split. Qed.

(** C6 does not hold of [insert]: unlike [update], it does not delete a
    caller's [_id] before encoding, so the value is stored as a property
    ([update] with the same body stores none). *)
Theorem insert_stores_caller_id :
  let body := [("_id", VNum (num 99)); ("name", VStr "A")] in
  snd (insert (devEnv 200 1 IterDone) ∅ "u1--contact" (BodyDoc body))
    !! ("u1--contact"%string, 1)
  = Some [mkProperty "_id" (VNum (num 99)) false; mkProperty "name" (VStr "A") false;
          mkProperty "_created" (VInt 200) false]
  /\ snd (insert (devEnv 200 1 IterDone) ∅ "u1--contact" (BodyDoc [("name", VStr "A")]))
       !! ("u1--contact"%string, 1)
     = Some [mkProperty "name" (VStr "A") false; mkProperty "_created" (VInt 200) false]
  /\ snd (update (devEnv 200 1 IterDone) ∅ "u1--contact" 1 (BodyDoc body))
       !! ("u1--contact"%string, 1)
     = Some [mkProperty "name" (VStr "A") false; mkProperty "_updated" (VInt 200) false].
Proof. repeat split. Qed.

(** ** Listing (C8, C9) *)

Section ListFacts.

Lemma drain_fails t : forall items crs, fails t = true -> drain t items crs = None.
Proof.
  induction t as [ | | k pl [c|] rest IH]; intros items crs H; simpl in *;
    try discriminate; try reflexivity.
  now apply IH.
Qed.


(** The iterators that fail are those that, after some rows, answer
    [Next] with an error or [Cursor] with an error. *)
Lemma fails_shape t :
  fails t = true <->
  exists rows, t = after rows IterError
               \/ exists k pl rest, t = after rows (IterRow k pl None rest).
Proof.
  split.
  - induction t as [ | | k pl [c|] rest IH]; simpl; intros H; try discriminate.
    + exists []. now left.
    + destruct (IH H) as [rows [E | (k' & pl' & rest' & E)]]; exists ((k, pl, c) :: rows);
        simpl; [left | right; exists k', pl', rest']; now rewrite E.
    + exists []. right. now exists k, pl, rest.
  - intros [rows H]. revert t H.
    induction rows as [|[[k pl] c] rows IH]; intros t H.
    + destruct H as [-> | (k & pl & rest & ->)]; reflexivity.
    + destruct H as [-> | (k' & pl' & rest' & ->)]; simpl; apply IH.
      * now left.
      * right. now exists k', pl', rest'.
Qed.


End ListFacts.




(** C9: when the iterator, after any number of rows, answers [t.Next]
    with an error other than [Done], or answers [t.Cursor] with an error
    after a row, [list] returns no map at all and status 500, whatever
    the rows before, and the handler answers with the bare error 500. *)
Theorem list_error_discards_rows
    (env : Env) (kind : string) (uq : userQuery) (rows : list (Z * PropertyList * Cursor)) :
  (Run env (buildQuery env kind uq) = after rows IterError
   \/ exists k pl rest,
        Run env (buildQuery env kind uq) = after rows (IterRow k pl None rest)) ->
  list_ env kind uq = Returned None StatusInternalServerError
  /\ respond (list_ env kind uq) = HTTPError StatusInternalServerError.
Proof.
  intros H.
  assert (F : fails (Run env (buildQuery env kind uq)) = true).
  { apply fails_shape. now exists rows. }
  unfold list_, runList. rewrite (drain_fails _ _ _ F). now split.
Qed.

Lemma list_error_discards_rows_witness :
  list_ (devEnv 200 1
           (after [(1, [mkProperty "name" (VStr "Alice") false], "c1"%string);
                   (2, [mkProperty "name" (VStr "Bob") false], "c2"%string)] IterError))
        "u1--contact" (mkUserQuery 0 "" "" "" [])
  = Returned None StatusInternalServerError.
Proof.
  apply (list_error_discards_rows
           (devEnv 200 1
              (after [(1, [mkProperty "name" (VStr "Alice") false], "c1"%string);
                      (2, [mkProperty "name" (VStr "Bob") false], "c2"%string)] IterError))
           "u1--contact" (mkUserQuery 0 "" "" "" [])
           [(1, [mkProperty "name" (VStr "Alice") false], "c1"%string);
            (2, [mkProperty "name" (VStr "Bob") false], "c2"%string)]).
  left. reflexivity.
Defined.

Example list_returns_rows :
  list_ (devEnv 200 1
           (after [(1, [mkProperty "name" (VStr "Alice") false], "c1"%string)] IterDone))
        "u1--contact" (mkUserQuery 0 "" "" "" [])
  = Returned (Some [("items", VArr [VDoc [("name", VStr "Alice"); ("_id", VInt 1)]]);
                    ("nextStartToken", VStr "c1")]) StatusOK.
Proof. reflexivity. Qed.

(** ** Paths and dispatch (C10) *)

Section PathFacts.

Lemma getKindAndID_zero kind :
  lacks "/" kind = true -> getKindAndID ("/" +:+ kind +:+ "/0") = Ok (kind, 0).
Proof.
  intros H. unfold getKindAndID.
  change ("/" +:+ kind +:+ "/0") with (String "/" (kind +:+ String "/" "0")).
  assert (E : String.eqb (String "/" (kind +:+ String "/" "0")) "/" = false).
  { apply String.eqb_neq. destruct kind; discriminate. }
  rewrite E.
  assert (P : HasPrefix (String "/" (kind +:+ String "/" "0")) "/" = true).
  { unfold HasPrefix. simpl. now destruct (kind +:+ String "/" "0"). }
  rewrite P.
  change (from 1 (String "/" (kind +:+ String "/" "0"))) with (kind +:+ String "/" "0").
  simpl negb. simpl orb. cbv iota.
  rewrite (Split_cons _ _ _ H). reflexivity.
Qed.

Lemma route_zero method :
  route method 0 = OpInsert \/ route method 0 = OpList \/ route method 0 = OpUnsupported.
Proof.
  unfold route. simpl.
  destruct (String.eqb method "POST"); [now left|].
  destruct (String.eqb method "GET"); [right; now left | right; now right].
Qed.

End PathFacts.

(** C10: for every kind (a path segment, so without [/]) the path
    [/kind/0] parses to the kind and id 0, and the handler, once the
    caller is identified, takes the branches of a collection request:
    [GET] is [list] (after the query parameters are parsed), [POST] is
    [insert], [DELETE] is answered 405; whatever the method, id 0 never
    selects [get], [update] or [delete2]. *)
Theorem id_zero_is_collection
    (env : Env) (s : Store) (r : Request) (kind userID : string) :
  lacks "/" kind = true ->
  Path r = "/" +:+ kind +:+ "/0" ->
  authenticate env r = Ok userID ->
  getKindAndID (Path r) = Ok (kind, 0)
  /\ route "GET" 0 = OpList /\ route "POST" 0 = OpInsert /\ route "DELETE" 0 = OpUnsupported
  /\ (forall method, route method 0 <> OpGet /\ route method 0 <> OpUpdate
                     /\ route method 0 <> OpDelete)
  /\ (Method r = "GET"%string ->
      handle env s r
      = match newUserQuery r with
        | None => (HTTPError StatusBadRequest, s)
        | Some uq => (respond (list_ env (dsKindOf userID kind) uq), s)
        end)
  /\ (Method r = "POST"%string ->
      handle env s r
      = (respond (fst (insert env s (dsKindOf userID kind) (ReqBody r))),
         snd (insert env s (dsKindOf userID kind) (ReqBody r))))
  /\ (Method r = "DELETE"%string ->
      handle env s r = (HTTPError StatusMethodNotAllowed, s)).
Proof.
  intros Hkind Hpath Hauth.
  assert (Hparse : getKindAndID (Path r) = Ok (kind, 0)).
  { rewrite Hpath. now apply getKindAndID_zero. }
  repeat split; try reflexivity.
  - exact Hparse.
  - destruct (route_zero method) as [E | [E | E]]; rewrite E; discriminate.
  - destruct (route_zero method) as [E | [E | E]]; rewrite E; discriminate.
  - destruct (route_zero method) as [E | [E | E]]; rewrite E; discriminate.
  - intros Hm. unfold handle, dispatch. rewrite Hauth, Hparse, Hm. reflexivity.
  - intros Hm. unfold handle, dispatch. rewrite Hauth, Hparse, Hm.
    change (route "POST" 0) with OpInsert. cbv iota.
    now destruct (insert env s (dsKindOf userID kind) (ReqBody r)).
  - intros Hm. unfold handle, dispatch. rewrite Hauth, Hparse, Hm. reflexivity.
Qed.

Lemma id_zero_is_collection_witness :
  getKindAndID "/contact/0" = Ok ("contact"%string, 0)
  /\ handle (devEnv 200 1 IterDone) ∅
       (mkRequest "DELETE" "/contact/0" {[ "user_id"%string := ["u1"%string] ]} "" BodyInvalid)
     = (HTTPError StatusMethodNotAllowed, ∅).
Proof.
  destruct (id_zero_is_collection (devEnv 200 1 IterDone) ∅
              (mkRequest "DELETE" "/contact/0" {[ "user_id"%string := ["u1"%string] ]} ""
                 BodyInvalid)
              "contact" "u1")
    as (H1 & _ & _ & _ & _ & _ & _ & H8).
  - reflexivity.
  - reflexivity.
  - vm_compute. reflexivity.
  - split; [exact H1 | exact (H8 eq_refl)].
Defined.

Example get_on_id_zero_lists :
  handle (devEnv 200 1 (after [(4, [mkProperty "name" (VStr "Alice") false], "c4"%string)] IterDone))
    {[ ("u1--contact"%string, 0) := [mkProperty "name" (VStr "Zero") false] ]}
    (mkRequest "GET" "/contact/0" {[ "user_id"%string := ["u1"%string] ]} "" BodyInvalid)
  = (OKBody [("items", VArr [VDoc [("name", VStr "Alice"); ("_id", VInt 4)]]);
             ("nextStartToken", VStr "c4")],
     {[ ("u1--contact"%string, 0) := [mkProperty "name" (VStr "Zero") false] ]}).
Proof. reflexivity. Qed.

(** * Further properties of the code *)

(** ** Paths *)

Section SplitFacts.

Lemma Split_pieces sep s : Forall (fun p => lacks sep p = true) (Split sep s).
Proof.
  induction s as [|c r IH]; simpl.
  - repeat constructor.
  - destruct (Ascii.eqb c sep) eqn:E.
    + constructor; [reflexivity | exact IH].
    + destruct (Split sep r) as [|h t].
      * constructor; [simpl; now rewrite E | constructor].
      * inversion IH as [|? ? Hh Ht]; subst.
        constructor; [simpl; now rewrite E, Hh | exact Ht].
Qed.

Lemma Join_cons sep p q t :
  Join sep (p :: q :: t) = p +:+ String sep (Join sep (q :: t)).
Proof. reflexivity. Qed.

Lemma Join_Split sep s : Join sep (Split sep s) = s.
Proof.
  induction s as [|c r IH]; [reflexivity|]. simpl.
  destruct (Ascii.eqb c sep) eqn:E.
  - apply Ascii.eqb_eq in E. subst c.
    destruct (Split sep r) as [|h t] eqn:S; [now apply Split_nonempty in S|].
    rewrite Join_cons, IH. reflexivity.
  - destruct (Split sep r) as [|h t] eqn:S; [now apply Split_nonempty in S|].
    destruct t as [|q t].
    + simpl in *. now rewrite IH.
    + rewrite Join_cons in *. rewrite <- IH. reflexivity.
Qed.

Lemma HasPrefix_slash path :
  HasPrefix path "/" = true -> exists rest, path = String "/" rest.
Proof.
  unfold HasPrefix. destruct path as [|c rest]; intros H.
  - cbn in H. discriminate H.
  - change (match ascii_dec "/" c with
            | left _ => String.prefix "" rest
            | right _ => false
            end = true) in H.
    destruct (ascii_dec "/" c) as [<-|]; [|discriminate H]. now exists rest.
Qed.

Lemma digits_nonneg s : forall acc n, 0 <= acc -> digits acc s = Some n -> 0 <= n.
Proof.
  induction s as [|c r IH]; simpl; intros acc n Hacc H.
  - injection H as <-. exact Hacc.
  - unfold digit in H.
    destruct ((48 <=? Z.of_N (N_of_ascii c)) && (Z.of_N (N_of_ascii c) <=? 57)) eqn:E;
      [|discriminate].
    apply andb_prop in E as [E1 E2]. apply Z.leb_le in E1.
    eapply IH; [|exact H]. lia.
Qed.

Lemma ParseInt_range s z : ParseInt s = Some z -> - 2 ^ 63 <= z < 2 ^ 63.
Proof.
  unfold ParseInt. destruct s as [|c r]; [discriminate|].
  set (body := if (Ascii.eqb c "+" || Ascii.eqb c "-")%bool then r else String c r).
  destruct (ParseUint body) as [un|] eqn:U; [|discriminate].
  assert (0 <= un) as Hun.
  { unfold ParseUint in U. destruct body; [discriminate|].
    eapply digits_nonneg; [|exact U]. lia. }
  destruct (Ascii.eqb c "-"); simpl.
  - destruct (2 ^ 63 <? un) eqn:L; [discriminate|].
    apply Z.ltb_ge in L. intros H. injection H as <-. lia.
  - destruct (2 ^ 63 <=? un) eqn:L; [discriminate|].
    apply Z.leb_gt in L. intros H. injection H as <-. lia.
Qed.

End SplitFacts.

(** X1: the paths that [getKindAndID] accepts are [/kind], with a kind
    that is not empty (then the id is 0), and [/kind/id] with [id] a
    decimal number that [ParseInt] reads; the kind has no slash in it and
    the id fits in 64 bits. *)
Theorem getKindAndID_accepts (path kind : string) (id : Z) :
  (getKindAndID path = Ok (kind, id) <->
   lacks "/" kind = true
   /\ ((path = "/" +:+ kind /\ kind <> EmptyString /\ id = 0)
       \/ exists idStr, path = "/" +:+ kind +:+ "/" +:+ idStr
                        /\ lacks "/" idStr = true /\ ParseInt idStr = Some id))
  /\ (getKindAndID path = Ok (kind, id) -> - 2 ^ 63 <= id < 2 ^ 63).
Proof.
  assert (Fwd : getKindAndID path = Ok (kind, id) ->
            lacks "/" kind = true
            /\ - 2 ^ 63 <= id < 2 ^ 63
            /\ ((path = "/" +:+ kind /\ kind <> EmptyString /\ id = 0)
                \/ exists idStr, path = "/" +:+ kind +:+ "/" +:+ idStr
                                 /\ lacks "/" idStr = true /\ ParseInt idStr = Some id)).
  { unfold getKindAndID. intros H.
    destruct (HasPrefix path "/") eqn:P; [|discriminate].
    destruct (String.eqb path "/") eqn:E; [discriminate|]. simpl in H.
    apply HasPrefix_slash in P as [rest ->]. simpl in H.
    pose proof (Join_Split "/" rest) as J.
    pose proof (Split_pieces "/" rest) as L.
    destruct (Split "/" rest) as [|a [|b [|c t]]]; try discriminate.
    - injection H as <- <-. simpl in J. subst rest.
      inversion L; subst. repeat split; trivial; try lia.
      left. repeat split. intros ->. discriminate.
    - destruct (ParseInt b) as [n|] eqn:Pb; [|discriminate].
      injection H as <- <-. rewrite Join_cons in J. simpl in J. subst rest.
      inversion L as [|? ? La Lb]; subst. inversion Lb; subst.
      repeat split; trivial; try (now apply (ParseInt_range b)).
      right. exists b. now repeat split. }
  split; [split|].
  - intros H. destruct (Fwd H) as (H1 & _ & H3). now split.
  - intros (Lk & [(-> & Hne & ->) | (idStr & -> & Li & Hp)]); unfold getKindAndID.
    + change ("/" +:+ kind) with (String "/" kind).
      assert (P : HasPrefix (String "/" kind) "/" = true).
      { unfold HasPrefix. simpl. now destruct kind. }
      assert (E : String.eqb (String "/" kind) "/" = false).
      { apply String.eqb_neq. intros F. injection F as ->. now apply Hne. }
      rewrite P, E. simpl. now rewrite (Split_lacks _ _ Lk).
    + change ("/" +:+ kind +:+ "/" +:+ idStr) with (String "/" (kind +:+ String "/" idStr)).
      assert (P : HasPrefix (String "/" (kind +:+ String "/" idStr)) "/" = true).
      { unfold HasPrefix. simpl. now destruct (kind +:+ String "/" idStr). }
      assert (E : String.eqb (String "/" (kind +:+ String "/" idStr)) "/" = false).
      { apply String.eqb_neq. destruct kind; discriminate. }
      rewrite P, E. simpl.
      now rewrite (Split_cons _ _ _ Lk), (Split_lacks _ _ Li), Hp.
  - intros H. now destruct (Fwd H) as (_ & H2 & _).
Qed.

Lemma getKindAndID_accepts_witness :
  lacks "/" "contact" = true /\ - 2 ^ 63 <= 42 < 2 ^ 63.
Proof.
  destruct (getKindAndID_accepts "/contact/42" "contact" 42) as ([Hfwd _] & Hrange).
  exact (conj (proj1 (Hfwd eq_refl)) (Hrange eq_refl)).
Defined.

(** X2: [getKindAndID] refuses a path with three segments or more and a
    path that does not start with a slash as invalid, and a path whose
    second segment is not a 64-bit decimal number (an empty one after a
    trailing slash included) with the error of [ParseInt]; [handle]
    answers each of them 400 and stores nothing. *)
Theorem malformed_path_rejected
    (env : Env) (s : Store) (r : Request) (a b c : string) :
  lacks "/" a = true -> lacks "/" b = true ->
  getKindAndID ("/" +:+ a +:+ "/" +:+ b +:+ "/" +:+ c) = Err invalidPath
  /\ getKindAndID ("/" +:+ a +:+ "/") = Err numError
  /\ (ParseInt b = None -> getKindAndID ("/" +:+ a +:+ "/" +:+ b) = Err numError)
  /\ (HasPrefix (Path r) "/" = false -> getKindAndID (Path r) = Err invalidPath)
  /\ (forall e userID, getKindAndID (Path r) = Err e -> authenticate env r = Ok userID ->
        handle env s r = (HTTPError StatusBadRequest, s)).
Proof.
  intros La Lb.
  assert (Shape : forall rest, getKindAndID (String "/" (a +:+ String "/" rest))
            = match Split "/" (a +:+ String "/" rest) with
              | [kind] => Ok (kind, 0)
              | [kind; idStr] =>
                  match ParseInt idStr with
                  | Some id => Ok (kind, id)
                  | None => Err numError
                  end
              | _ => Err invalidPath
              end).
  { intros rest. unfold getKindAndID.
    assert (P : HasPrefix (String "/" (a +:+ String "/" rest)) "/" = true).
    { unfold HasPrefix. simpl. now destruct (a +:+ String "/" rest). }
    assert (E : String.eqb (String "/" (a +:+ String "/" rest)) "/" = false).
    { apply String.eqb_neq. destruct a; discriminate. }
    rewrite P, E. reflexivity. }
  repeat split.
  - change ("/" +:+ a +:+ "/" +:+ b +:+ "/" +:+ c)
      with (String "/" (a +:+ String "/" (b +:+ String "/" c))).
    rewrite Shape, (Split_cons _ _ _ La), (Split_cons _ _ _ Lb).
    pose proof (Split_nonempty "/" c). now destruct (Split "/" c).
  - change ("/" +:+ a +:+ "/") with (String "/" (a +:+ String "/" "")).
    now rewrite Shape, (Split_cons _ _ _ La).
  - intros Pb.
    change ("/" +:+ a +:+ "/" +:+ b) with (String "/" (a +:+ String "/" b)).
    now rewrite Shape, (Split_cons _ _ _ La), (Split_lacks _ _ Lb), Pb.
  - intros P. unfold getKindAndID. now rewrite P.
  - intros e userID He Hauth. unfold handle. now rewrite Hauth, He.
Qed.

Lemma malformed_path_rejected_witness :
  getKindAndID "/contact/7/x" = Err invalidPath
  /\ getKindAndID "/contact/" = Err numError.
Proof.
  destruct (malformed_path_rejected (devEnv 0 1 IterDone) ∅
              (mkRequest "GET" "/contact/7/x" ∅ "" BodyInvalid) "contact" "7" "x"
              eq_refl eq_refl) as (H1 & H2 & _).
  exact (conj H1 H2).
Defined.

(** ** The handler *)

Section HandlerFacts.

Lemma doc_set_cons k v m : exists e m', doc_set k v m = e :: m'.
Proof.
  destruct m as [|[k' v'] m]; simpl; [now eexists _, _|].
  destruct (String.eqb k k'); now eexists _, _.
Qed.

Lemma respond_written k v m : respond (Returned (Some (doc_set k v m)) StatusOK)
                              = OKBody (doc_set k v m).
Proof. destruct (doc_set_cons k v m) as (e & m' & ->). reflexivity. Qed.

Lemma respond_code code :
  respond (Returned None code) = if code =? StatusOK then OKEmpty else HTTPError code.
Proof. unfold respond. now destruct (code =? StatusOK). Qed.

End HandlerFacts.

(** X3: outside the development server a request with no [access_token]
    parameter and no bearer token in its [Authorization] header is
    answered 401, and one whose token the identity provider does not
    resolve is answered 500; neither reaches the datastore, whatever its
    method, path and body. *)
Theorem unauthenticated_rejected (env : Env) (s : Store) (r : Request) :
  IsDevAppServer env = false ->
  (FormValue r "access_token" = EmptyString ->
   HasPrefix (Authorization r) "Bearer " = false \/ Authorization r = "Bearer "%string ->
   handle env s r = (HTTPError StatusUnauthorized, s))
  /\ (FormValue r "access_token" <> EmptyString ->
      getUserID env (FormValue r "access_token") = None ->
      handle env s r = (HTTPError StatusInternalServerError, s))
  /\ (forall tok, FormValue r "access_token" = EmptyString ->
      Authorization r = "Bearer " +:+ tok -> tok <> EmptyString ->
      getUserID env tok = None ->
      handle env s r = (HTTPError StatusInternalServerError, s)).
Proof.
  intros Hprod. unfold handle, authenticate. rewrite Hprod. cbv zeta. repeat split.
  - intros Htok [Hh | Hh]; rewrite !Htok; simpl.
    + now rewrite Hh.
    + now rewrite Hh.
  - intros Htok Hid. apply String.eqb_neq in Htok. now rewrite !Htok, Hid.
  - intros tok Htok Hh Hne Hid. rewrite !Htok, Hh.
    change (String.eqb "" "") with true. cbv iota.
    assert (P : HasPrefix ("Bearer " +:+ tok) "Bearer " = true).
    { unfold HasPrefix. cbn. now destruct tok. }
    rewrite P. change (from 7 ("Bearer " +:+ tok)) with tok.
    apply String.eqb_neq in Hne. now rewrite Hne, Hid.
Qed.

Lemma unauthenticated_rejected_witness :
  handle (mkEnv false (fun _ => None) 0 false 1 (fun _ => None) (fun _ => IterDone) []) ∅
    (mkRequest "POST" "/contact" ∅ "Basic abc" (BodyDoc [("name", VStr "A")]))
  = (HTTPError StatusUnauthorized, ∅).
Proof.
  destruct (unauthenticated_rejected
              (mkEnv false (fun _ => None) 0 false 1 (fun _ => None) (fun _ => IterDone) []) ∅
              (mkRequest "POST" "/contact" ∅ "Basic abc" (BodyDoc [("name", VStr "A")]))
              eq_refl) as (H & _).
  apply H; [reflexivity | left; reflexivity].
Defined.

(** X4: a request that [handle] answers with an error status, or that
    makes it panic, leaves every entity as it was. *)
Theorem error_keeps_store (env : Env) (s : Store) (r : Request) :
  isError (fst (handle env s r)) = true -> snd (handle env s r) = s.
Proof.
  unfold handle.
  destruct (authenticate env r) as [userID|]; [|reflexivity].
  destruct (getKindAndID (Path r)) as [[kind id]|]; [|reflexivity].
  unfold dispatch. destruct (route (Method r) id); try reflexivity.
  - unfold insert. destruct (ReqBody r); try reflexivity.
    destruct (backendErr env); [reflexivity|].
    cbn beta iota delta [fst snd]. rewrite respond_written.
    intros H. discriminate H.
  - now destruct (newUserQuery r).
  - unfold delete2. destruct (backendErr env); [reflexivity|].
    destruct (dsDelete s (dsKindOf userID kind) id); [|reflexivity].
    intros H. discriminate H.
  - unfold update. destruct (ReqBody r); try reflexivity.
    destruct (backendErr env); [reflexivity|].
    cbn beta iota delta [fst snd]. rewrite respond_written.
    intros H. discriminate H.
Qed.

Lemma error_keeps_store_witness :
  snd (handle (devEnv 0 1 IterDone)
         {[ ("u1--contact"%string, 5) := [mkProperty "name" (VStr "A") false] ]}
         (mkRequest "POST" "/contact/5" {[ "user_id"%string := ["u1"%string] ]} "" BodyInvalid))
  = {[ ("u1--contact"%string, 5) := [mkProperty "name" (VStr "A") false] ]}.
Proof.
  apply (error_keeps_store (devEnv 0 1 IterDone)
           {[ ("u1--contact"%string, 5) := [mkProperty "name" (VStr "A") false] ]}
           (mkRequest "POST" "/contact/5" {[ "user_id"%string := ["u1"%string] ]} ""
              BodyInvalid)).
  vm_compute. reflexivity.
Defined.

(** X5: a request changes at most one entity, and that entity is of the
    storage kind [userID--kind] of the caller: the one with the id of the
    path, or, for a collection path, the one with the id the backend
    assigns. *)
Theorem writes_stay_in_kind
    (env : Env) (s : Store) (r : Request) (userID kind : string) (id : Z) :
  authenticate env r = Ok userID ->
  getKindAndID (Path r) = Ok (kind, id) ->
  forall k i,
    (k, i) <> (dsKindOf userID kind, if id =? 0 then allocID env else id) ->
    snd (handle env s r) !! (k, i) = s !! (k, i).
Proof.
  intros Hauth Hpath k i Hne. unfold handle. rewrite Hauth, Hpath.
  unfold dispatch, route.
  destruct (id =? 0) eqn:Z0.
  - destruct (String.eqb (Method r) "POST").
    + unfold insert. destruct (ReqBody r); try reflexivity.
      destruct (backendErr env); [reflexivity|].
      simpl. unfold dsPut. now rewrite lookup_insert_ne.
    + destruct (String.eqb (Method r) "GET"); [|reflexivity].
      now destruct (newUserQuery r).
  - destruct (String.eqb (Method r) "GET"); [reflexivity|].
    destruct (String.eqb (Method r) "DELETE").
    + unfold delete2. destruct (backendErr env); [reflexivity|].
      unfold dsDelete. destruct (s !! (dsKindOf userID kind, id)); [|reflexivity].
      simpl. now rewrite lookup_delete_ne.
    + destruct (String.eqb (Method r) "POST"); [|reflexivity].
      unfold update. destruct (ReqBody r); try reflexivity.
      destruct (backendErr env); [reflexivity|].
      simpl. unfold dsPut. now rewrite lookup_insert_ne.
Qed.

Lemma writes_stay_in_kind_witness :
  snd (handle (devEnv 0 1 IterDone)
         {[ ("u2--contact"%string, 5) := [mkProperty "name" (VStr "B") false] ]}
         (mkRequest "DELETE" "/contact/5" {[ "user_id"%string := ["u1"%string] ]} "" BodyInvalid))
    !! ("u2--contact"%string, 5)
  = ({[ ("u2--contact"%string, 5) := [mkProperty "name" (VStr "B") false] ]} : Store)
      !! ("u2--contact"%string, 5).
Proof.
  apply (writes_stay_in_kind (devEnv 0 1 IterDone)
           {[ ("u2--contact"%string, 5) := [mkProperty "name" (VStr "B") false] ]}
           (mkRequest "DELETE" "/contact/5" {[ "user_id"%string := ["u1"%string] ]} ""
              BodyInvalid)
           "u1" "contact" 5).
  - vm_compute. reflexivity.
  - reflexivity.
  - intros E. discriminate E.
Defined.

(** X6: two callers whose identities contain no hyphen never share a
    storage kind: from the storage kind both the identity and the kind
    can be read back. *)
Theorem dsKindOf_injective (u1 u2 k1 k2 : string) :
  lacks "-" u1 = true -> lacks "-" u2 = true ->
  dsKindOf u1 k1 = dsKindOf u2 k2 -> u1 = u2 /\ k1 = k2.
Proof.
  unfold dsKindOf. revert u2.
  induction u1 as [|c u1 IH]; intros [|c2 u2] L1 L2 E.
  - change (String "-" (String "-" k1) = String "-" (String "-" k2)) in E.
    injection E as ->. now split.
  - change (String "-" (String "-" k1) = String c2 (u2 +:+ "--" +:+ k2)) in E.
    injection E as <- _. discriminate L2.
  - change (String c (u1 +:+ "--" +:+ k1) = String "-" (String "-" k2)) in E.
    injection E as -> _. discriminate L1.
  - change (String c (u1 +:+ "--" +:+ k1) = String c2 (u2 +:+ "--" +:+ k2)) in E.
    injection E as -> E.
    simpl in L1, L2. apply andb_prop in L1 as [_ L1]. apply andb_prop in L2 as [_ L2].
    destruct (IH u2 L1 L2 E) as [-> ->]. now split.
Qed.

Lemma dsKindOf_injective_witness : "1234"%string = "1234"%string /\ "contact"%string = "contact"%string.
Proof.
  exact (dsKindOf_injective "1234" "1234" "contact" "contact" eq_refl eq_refl eq_refl).
Defined.

(** Without that, storage kinds collide. *)
Example dsKindOf_collision : dsKindOf "a--b" "c" = dsKindOf "a" "b--c".
Proof. reflexivity. Qed.

(** ** How the CRUD functions compose *)

(** X7: after an insert that succeeds, [get] with the assigned id finds
    the entity and returns the decoding of what was stored, the encoding
    of the body with [_created] stamped, taken in the order in which
    [range] visited it.  For a body that the codec gives back unchanged
    this is, whatever that order, the document that [insert] returned:
    unique keys, and the same value under every key. *)
Theorem insert_then_get (env env' : Env) (s : Store) (kind : string) (body : Doc) :
  backendErr env = false ->
  backendErr env' = false ->
  let m := doc_set createdKey (VInt (nowUnix env)) body in
  let s' := snd (insert env s kind (BodyDoc body)) in
  fst (insert env s kind (BodyDoc body))
  = Returned (Some (doc_set idKey (VInt (allocID env)) m)) StatusOK
  /\ (exists m', Permutation m' m
        /\ s' !! (kind, allocID env) = Some (mapToPlist "" m')
        /\ get env' s' kind (allocID env)
           = Returned (Some (plistToMap (mapToPlist "" m') (allocID env))) StatusOK)
  /\ (faithfulDoc body = true ->
      exists d, get env' s' kind (allocID env) = Returned (Some d) StatusOK
                /\ uniq (keys d) = true
                /\ forall k, doc_get k d = doc_get k (doc_set idKey (VInt (allocID env)) m)).
Proof.
  intros Hok Hok' m s'. subst s'. unfold insert. fold m. rewrite Hok.
  cbn beta iota zeta delta [fst snd].
  pose proof (get_after_put env' s kind (allocID env) (mapToPlist "" (ranged env m)) Hok')
    as Hget.
  repeat split.
  - exists (ranged env m). split; [apply ranged_Permutation|].
    split; [apply lookup_insert_eq | exact Hget].
  - intros Hf. eexists. split; [exact Hget|].
    apply decode_any_order; [|apply ranged_Permutation].
    subst m. now apply faithfulDoc_set.
Qed.

Lemma insert_then_get_witness :
  exists d,
    get (devEnv 300 9 IterDone)
        (snd (insert (devEnvRanged 200 4 [2%nat; 0%nat]) ∅ "u1--contact"
                (BodyDoc [("name", VStr "Alice"); ("tags", VArr [VStr "a"; VStr "b"])])))
        "u1--contact" (allocID (devEnvRanged 200 4 [2%nat; 0%nat]))
    = Returned (Some d) StatusOK
    /\ uniq (keys d) = true
    /\ forall k,
         doc_get k d
         = doc_get k
             (doc_set idKey (VInt (allocID (devEnvRanged 200 4 [2%nat; 0%nat])))
                (doc_set createdKey (VInt (nowUnix (devEnvRanged 200 4 [2%nat; 0%nat])))
                   [("name", VStr "Alice"); ("tags", VArr [VStr "a"; VStr "b"])])).
Proof.
  apply (insert_then_get (devEnvRanged 200 4 [2%nat; 0%nat]) (devEnv 300 9 IterDone));
    reflexivity.
Defined.

(** The two orders of [range] for the body [{"_created.x": 5}]. *)
Example insert_range_orders :
  get (devEnv 300 1 IterDone)
      (snd (insert (devEnvRanged 200 7 []) ∅ "k" (BodyDoc [("_created.x", VInt 5)]))) "k" 7
  = Returned (Some [("_created", VArr [VDoc [("x", VInt 5)]; VInt 200]); ("_id", VInt 7)])
      StatusOK
  /\ get (devEnv 300 1 IterDone)
         (snd (insert (devEnvRanged 200 7 [1%nat]) ∅ "k" (BodyDoc [("_created.x", VInt 5)])))
         "k" 7
     = Returned (Some [("_created", VInt 200); ("x", VInt 5); ("_id", VInt 7)]) StatusOK.
Proof. split; reflexivity. Qed.

(** X8: after [delete2] on a backend that does not fail, whether the
    entity existed or not, [get] answers 404 and a second [delete2]
    answers 404 and changes nothing. *)
Theorem delete_is_final (env env1 env2 : Env) (s : Store) (kind : string) (id : Z) :
  backendErr env = false -> backendErr env1 = false -> backendErr env2 = false ->
  let s' := snd (delete2 env s kind id) in
  get env1 s' kind id = Returned None StatusNotFound
  /\ delete2 env2 s' kind id = (StatusNotFound, s').
Proof.
  intros H H1 H2 s'.
  assert (Gone : s' !! (kind, id) = None).
  { subst s'. unfold delete2, dsDelete. rewrite H.
    destruct (s !! (kind, id)) eqn:E; simpl; [apply lookup_delete_eq | exact E]. }
  unfold get, delete2, dsGet, dsDelete. now rewrite H1, H2, Gone.
Qed.

Lemma delete_is_final_witness :
  get (devEnv 0 1 IterDone)
      (snd (delete2 (devEnv 0 1 IterDone)
              {[ ("u1--contact"%string, 5) := [mkProperty "name" (VStr "A") false] ]}
              "u1--contact" 5))
      "u1--contact" 5
  = Returned None StatusNotFound.
Proof.
  apply (delete_is_final (devEnv 0 1 IterDone) (devEnv 0 1 IterDone) (devEnv 0 1 IterDone));
    reflexivity.
Defined.

(** X9: the last write wins.  An update that succeeds leaves the store
    as if the request before it on the same entity, an update or a
    delete, successful or not, had not happened. *)
Theorem last_write_wins
    (env1 env2 : Env) (s : Store) (kind : string) (id : Z) (r1 : Body) (body2 : Doc) :
  backendErr env2 = false ->
  snd (update env2 (snd (update env1 s kind id r1)) kind id (BodyDoc body2))
  = snd (update env2 s kind id (BodyDoc body2))
  /\ snd (update env2 (snd (delete2 env1 s kind id)) kind id (BodyDoc body2))
     = snd (update env2 s kind id (BodyDoc body2)).
Proof.
  intros H2. split.
  - unfold update at 1 3. rewrite H2. simpl. unfold update.
    destruct r1; try reflexivity.
    destruct (backendErr env1); [reflexivity|].
    simpl. unfold dsPut. apply insert_insert_eq.
  - unfold update. rewrite H2. simpl. unfold delete2, dsDelete.
    destruct (backendErr env1); [reflexivity|].
    destruct (s !! (kind, id)); [|reflexivity].
    simpl. unfold dsPut. apply insert_delete_eq.
Qed.

Lemma last_write_wins_witness :
  snd (update (devEnv 200 1 IterDone)
         (snd (update (devEnv 100 1 IterDone) ∅ "u1--contact" 5
                 (BodyDoc [("name", VStr "Alice")])))
         "u1--contact" 5 (BodyDoc [("name", VStr "Bob")]))
  = snd (update (devEnv 200 1 IterDone) ∅ "u1--contact" 5 (BodyDoc [("name", VStr "Bob")])).
Proof.
  apply (last_write_wins (devEnv 100 1 IterDone) (devEnv 200 1 IterDone)). reflexivity.
Defined.

(** X10: every document that [get], [insert] and [update] return carries
    under [_id] the numeric id of the entity's key, whatever the stored
    properties or the request body hold under that name. *)
Theorem response_carries_key_id
    (env : Env) (s : Store) (kind : string) (id : Z) (r : Body) (m : Doc) (code : Z) :
  (get env s kind id = Returned (Some m) code -> doc_get idKey m = Some (VInt id))
  /\ (fst (insert env s kind r) = Returned (Some m) code ->
      doc_get idKey m = Some (VInt (allocID env)))
  /\ (fst (update env s kind id r) = Returned (Some m) code ->
      doc_get idKey m = Some (VInt id)).
Proof.
  repeat split.
  - unfold get. destruct (backendErr env); [discriminate|].
    destruct (dsGet s kind id); [|discriminate].
    intros H. injection H as <- _. apply doc_get_set_same.
  - unfold insert. destruct r; try discriminate.
    destruct (backendErr env); [discriminate|].
    simpl. intros H. injection H as <- _. apply doc_get_set_same.
  - unfold update. destruct r; try discriminate.
    destruct (backendErr env); [discriminate|].
    simpl. intros H. injection H as <- _. apply doc_get_set_same.
Qed.

Lemma response_carries_key_id_witness :
  doc_get idKey [("_id", VInt 5)] = Some (VInt 5).
Proof.
  refine (proj1 (response_carries_key_id (devEnv 0 1 IterDone)
                   {[ ("k"%string, 5) := [mkProperty "_id" (VStr "mine") false] ]}
                   "k" 5 BodyInvalid [("_id", VInt 5)] StatusOK) _).
  reflexivity.
Defined.

(** ** Reserved names in what is stored *)

Section NameFacts.

Lemma lacks_append c a b : lacks c (a +:+ String c b) = false.
Proof.
  induction a as [|x a IH].
  - simpl. now rewrite Ascii.eqb_refl.
  - change (lacks c (String x (a +:+ String c b)) = false). simpl.
    rewrite IH. apply andb_false_r.
Qed.

(** The name of a property is the prefix and the key, or these followed
    by a dot and more. *)
Lemma entry_names v : forall prefix k p,
  In p (entryToPlist prefix k v) ->
  Name p = prefix +:+ k \/ exists rest, Name p = prefix +:+ k +:+ String "." rest.
Proof.
  induction v as [ | b | f | i | s | l _ | m IH] using Value_nested_ind;
    intros prefix k p Hin; simpl in Hin;
    try (destruct Hin as [<- | []]; now left).
  - apply in_map_iff in Hin as (mv & <- & _). now left.
  - right. apply in_flat_map in Hin as ([k' v'] & Hkv & Hp).
    rewrite List.Forall_forall in IH. specialize (IH _ Hkv _ _ _ Hp). simpl in IH.
    destruct IH as [E | [rest E]]; rewrite E.
    + exists k'. now rewrite !append_assoc.
    + exists (k' +:+ String "." rest). now rewrite !append_assoc.
Qed.

Lemma top_names m p :
  In p (mapToPlist "" m) ->
  exists k, In k (keys m) /\ (Name p = k \/ exists rest, Name p = k +:+ String "." rest).
Proof.
  unfold mapToPlist. intros Hin. apply in_flat_map in Hin as ([k v] & Hkv & Hp).
  exists k. split; [apply in_map_iff; now exists (k, v)|].
  exact (entry_names v "" k p Hp).
Qed.

Lemma keys_of_delete k k' m : In k (keys (doc_delete k' m)) -> k <> k' /\ In k (keys m).
Proof.
  unfold keys. induction m as [|[k0 v0] m IH]; simpl; [tauto|].
  destruct (String.eqb k' k0) eqn:E; simpl.
  - intros H. destruct (IH H). tauto.
  - apply String.eqb_neq in E. intros [<- | H]; [split; [congruence | now left]|].
    destruct (IH H). tauto.
Qed.

Lemma keys_of_set k k' v m : In k (keys (doc_set k' v m)) -> k = k' \/ In k (keys m).
Proof.
  unfold keys. induction m as [|[k0 v0] m IH]; simpl; [intuition congruence|].
  destruct (String.eqb k' k0) eqn:E; simpl; [tauto|].
  intros [<- | H]; [tauto|]. destruct (IH H); tauto.
Qed.

Lemma no_property_named k m :
  lacks "." k = true -> ~ In k (keys m) ->
  Forall (fun p => Name p <> k) (mapToPlist "" m).
Proof.
  intros Hk Hnot. apply List.Forall_forall. intros p Hp E.
  destruct (top_names m p Hp) as (k' & Hin & [E' | [rest E']]).
  - apply Hnot. congruence.
  - rewrite E in E'. rewrite E', lacks_append in Hk. discriminate.
Qed.

Lemma doc_set_split k v m :
  uniq (keys m) = true ->
  exists pre post, doc_set k v m = pre ++ (k, v) :: post
                   /\ ~ In k (keys pre) /\ ~ In k (keys post).
Proof.
  unfold keys. induction m as [|[k0 v0] m IH]; intros Hu.
  - exists [], []. simpl. tauto.
  - apply uniq_cons in Hu as [Hnot Hu]. simpl.
    destruct (String.eqb k k0) eqn:E.
    + apply String.eqb_eq in E. subst k0. exists [], m. simpl. tauto.
    + apply String.eqb_neq in E. destruct (IH Hu) as (pre & post & -> & Hpre & Hpost).
      exists ((k0, v0) :: pre), post. simpl. repeat split; [|exact Hpost].
      intros [F | F]; [congruence | contradiction].
Qed.

Lemma filter_none {A} (f : A -> bool) l :
  Forall (fun x => f x = false) l -> List.filter f l = [].
Proof.
  induction 1 as [|x l Hx _ IH]; simpl; [reflexivity|]. now rewrite Hx.
Qed.

End NameFacts.

(** X11: a successful update stores no property named [_id] or
    [_created], whatever the body holds under these keys. *)
Theorem update_strips_reserved
    (env : Env) (s : Store) (kind : string) (id : Z) (body : Doc) :
  backendErr env = false ->
  exists pl,
    snd (update env s kind id (BodyDoc body)) !! (kind, id) = Some pl
    /\ Forall (fun p => Name p <> idKey /\ Name p <> createdKey) pl.
Proof.
  intros Hok. unfold update. rewrite Hok.
  cbn beta iota zeta delta [fst snd]. unfold dsPut.
  eexists. split; [apply lookup_insert_eq|].
  set (m := doc_set updatedKey _ _).
  assert (Sub : forall k, In k (keys (ranged env m)) -> In k (keys m)).
  { intros k H. unfold keys in *.
    exact (Permutation_in _ (Permutation_map fst (ranged_Permutation env m)) H). }
  assert (Hid : ~ In idKey (keys (ranged env m))).
  { intros H. apply Sub, keys_of_set in H as [H | H]; [discriminate|].
    apply keys_of_delete in H as [H _]. congruence. }
  assert (Hcr : ~ In createdKey (keys (ranged env m))).
  { intros H. apply Sub, keys_of_set in H as [H | H]; [discriminate|].
    apply keys_of_delete in H as [_ H]. apply keys_of_delete in H as [H _]. congruence. }
  pose proof (no_property_named idKey (ranged env m) eq_refl Hid) as F1.
  pose proof (no_property_named createdKey (ranged env m) eq_refl Hcr) as F2.
  rewrite List.Forall_forall in *. intros p Hp. split; [now apply F1 | now apply F2].
Qed.

Lemma update_strips_reserved_witness :
  exists pl,
    snd (update (devEnv 200 1 IterDone) ∅ "u1--contact" 5
           (BodyDoc [("_id", VNum (num 99)); ("_created", VInt 1); ("name", VStr "A")]))
      !! ("u1--contact"%string, 5) = Some pl
    /\ Forall (fun p => Name p <> idKey /\ Name p <> createdKey) pl.
Proof.
  exact (update_strips_reserved (devEnv 200 1 IterDone) ∅ "u1--contact" 5
           [("_id", VNum (num 99)); ("_created", VInt 1); ("name", VStr "A")] eq_refl).
Defined.

(** X12: a successful insert stores exactly one property named
    [_created], and it holds the clock's value: what the body has under
    that key, a nested document or an array included, is not stored. *)
Theorem insert_stamps_created (env : Env) (s : Store) (kind : string) (body : Doc) :
  backendErr env = false ->
  uniq (keys body) = true ->
  exists pl,
    snd (insert env s kind (BodyDoc body)) !! (kind, allocID env) = Some pl
    /\ List.filter (fun p => String.eqb (Name p) createdKey) pl
       = [mkProperty createdKey (VInt (nowUnix env)) false].
Proof.
  intros Hok Hu. unfold insert. rewrite Hok.
  cbn beta iota zeta delta [fst snd]. unfold dsPut.
  eexists. split; [apply lookup_insert_eq|].
  set (m0 := doc_set createdKey (VInt (nowUnix env)) body).
  pose proof (uniq_doc_set createdKey (VInt (nowUnix env)) body Hu) as Hm. fold m0 in Hm.
  pose proof (ranged_Permutation env m0) as Hp.
  pose proof (uniq_keys_Permutation m0 (ranged env m0) (Permutation_sym Hp) Hm) as Hr.
  assert (Hin : In (createdKey, VInt (nowUnix env)) (ranged env m0)).
  { apply (Permutation_in _ (Permutation_sym Hp)).
    apply (doc_get_In _ _ m0 Hm). apply doc_get_set_same. }
  apply in_split in Hin as (pre & post & Hsplit). rewrite Hsplit in Hr |- *.
  assert (Hpre : ~ In createdKey (keys pre) /\ ~ In createdKey (keys post)).
  { apply uniq_NoDup in Hr. unfold keys in *. rewrite List.map_app in Hr. simpl in Hr.
    apply List.NoDup_remove_2 in Hr. split; intros F; apply Hr, in_or_app; tauto. }
  destruct Hpre as [Hpre Hpost].
  rewrite mapToPlist_app, mapToPlist_cons, !List.filter_app.
  assert (None : forall d, ~ In createdKey (keys d) ->
            List.filter (fun p => String.eqb (Name p) createdKey) (mapToPlist "" d) = []).
  { intros d Hd. apply filter_none.
    eapply List.Forall_impl; [|exact (no_property_named createdKey d eq_refl Hd)].
    intros p Hnp. now apply String.eqb_neq. }
  now rewrite (None pre Hpre), (None post Hpost).
Qed.

Lemma insert_stamps_created_witness :
  exists pl,
    snd (insert (devEnv 200 1 IterDone) ∅ "u1--contact"
           (BodyDoc [("_created", VDoc [("x", VInt 1)]); ("name", VStr "A")]))
      !! ("u1--contact"%string, allocID (devEnv 200 1 IterDone)) = Some pl
    /\ List.filter (fun p => String.eqb (Name p) createdKey) pl
       = [mkProperty createdKey (VInt (nowUnix (devEnv 200 1 IterDone))) false].
Proof.
  exact (insert_stamps_created (devEnv 200 1 IterDone) ∅ "u1--contact"
           [("_created", VDoc [("x", VInt 1)]); ("name", VStr "A")] eq_refl eq_refl).
Defined.

(** ** More on the codec *)

Section FlagFacts.

Lemma fold_setMultiple b pl : forall m,
  fold_left addProperty (List.map (setMultiple b) pl) m = fold_left addProperty pl m.
Proof. induction pl as [|p pl IH]; intros m; simpl; [reflexivity | apply IH]. Qed.

Lemma plistToMap_flags pl pl' id :
  List.map (setMultiple false) pl = List.map (setMultiple false) pl' ->
  plistToMap pl id = plistToMap pl' id.
Proof.
  intros E. unfold plistToMap, decodeProps.
  now rewrite <- (fold_setMultiple false pl), <- (fold_setMultiple false pl'), E.
Qed.

Lemma doc_get_set_some k k' v m :
  doc_get k m <> None -> doc_get k (doc_set k' v m) <> None.
Proof.
  intros H. destruct (String.eqb k k') eqn:E.
  - apply String.eqb_eq in E. subst k'. now rewrite doc_get_set_same.
  - apply String.eqb_neq in E. now rewrite doc_get_set_other.
Qed.

Lemma setLeaf_keeps k leaf v m : doc_get k m <> None -> doc_get k (setLeaf leaf v m) <> None.
Proof.
  intros H. unfold setLeaf.
  destruct (doc_get leaf m) as [[ | b | f | i | s | l | ii]|]; now apply doc_get_set_some.
Qed.

Lemma walk_keeps k leaf v : forall ps sub,
  doc_get k sub <> None -> doc_get k (walk ps leaf v sub) <> None.
Proof.
  induction ps as [|p ps IH]; intros sub H; simpl.
  - now apply setLeaf_keeps.
  - destruct (doc_get p sub) as [[ | b | f | i | s | l | ii]|];
      try (now apply IH); now apply doc_get_set_some.
Qed.

Lemma fold_keeps k pl : forall m,
  doc_get k m <> None -> doc_get k (fold_left addProperty pl m) <> None.
Proof.
  induction pl as [|p pl IH]; intros m H; simpl; [exact H|].
  apply IH. now apply walk_keeps.
Qed.

End FlagFacts.

(** X13: [plistToMap] never looks at the [Multiple] flag: the decoded
    document is the same whatever the flags of the properties are. *)
Theorem decode_ignores_multiple (pl : PropertyList) (b : bool) (id : Z) :
  plistToMap (List.map (setMultiple b) pl) id = plistToMap pl id.
Proof. unfold plistToMap, decodeProps. now rewrite fold_setMultiple. Qed.

(** X14: an array of one scalar and the scalar itself are encoded by the
    same property up to the [Multiple] flag, so they decode to the same
    document: the array comes back as the bare scalar. *)
Theorem single_element_array_is_scalar
    (prefix k : string) (x : Value) (m1 m2 : Doc) (id : Z) :
  scalar x = true ->
  List.map (setMultiple false) (mapToPlist prefix (m1 ++ (k, VArr [x]) :: m2))
  = List.map (setMultiple false) (mapToPlist prefix (m1 ++ (k, x) :: m2))
  /\ plistToMap (mapToPlist "" (m1 ++ (k, VArr [x]) :: m2)) id
     = plistToMap (mapToPlist "" (m1 ++ (k, x) :: m2)) id.
Proof.
  intros Hx.
  assert (E : forall p, List.map (setMultiple false) (mapToPlist p (m1 ++ (k, VArr [x]) :: m2))
                        = List.map (setMultiple false) (mapToPlist p (m1 ++ (k, x) :: m2))).
  { intros p. rewrite !mapToPlist_app, !mapToPlist_cons, !List.map_app.
    do 2 f_equal. destruct x; try discriminate; reflexivity. }
  split; [apply E | apply plistToMap_flags, E].
Qed.

Lemma single_element_array_is_scalar_witness :
  plistToMap (mapToPlist "" ([("name", VStr "A")] ++ ("tags", VArr [VStr "a"]) :: [])) 7
  = plistToMap (mapToPlist "" ([("name", VStr "A")] ++ ("tags", VStr "a") :: [])) 7.
Proof.
  exact (proj2 (single_element_array_is_scalar "" "tags" (VStr "a") [("name", VStr "A")] [] 7
                  eq_refl)).
Defined.

(** X15: decoding never removes a field: a top-level key present in the
    document decoded from a property list is present in the document
    decoded from any longer list. *)
Theorem decode_keeps_fields (pl1 pl2 : PropertyList) (id : Z) (k : string) :
  doc_get k (plistToMap pl1 id) <> None ->
  doc_get k (plistToMap (pl1 ++ pl2) id) <> None.
Proof.
  unfold plistToMap. rewrite decodeProps_app. intros H.
  destruct (String.eqb k idKey) eqn:E.
  - apply String.eqb_eq in E. subst k. now rewrite doc_get_set_same.
  - apply String.eqb_neq in E. rewrite doc_get_set_other in * by exact E.
    now apply fold_keeps.
Qed.

Lemma decode_keeps_fields_witness :
  doc_get "a" (plistToMap ([mkProperty "a" (VInt 1) false]
                           ++ [mkProperty "a.b" (VInt 2) false]) 7) <> None.
Proof.
  apply (decode_keeps_fields [mkProperty "a" (VInt 1) false]
           [mkProperty "a.b" (VInt 2) false] 7 "a").
  discriminate.
Defined.

(** X16: [mapToPlist] flattens every nested document: a property that is
    not flagged [Multiple] never holds a document or an array. *)
Theorem plain_properties_hold_scalars (prefix : string) (m : Doc) :
  Forall (fun p => Multiple p = false -> scalar (PValue p) = true) (mapToPlist prefix m).
Proof.
  assert (Entry : forall v pre k,
            Forall (fun p => Multiple p = false -> scalar (PValue p) = true)
                   (entryToPlist pre k v)).
  { induction v as [ | b | f | i | s | l _ | m0 IH] using Value_nested_ind;
      intros pre k; simpl; try (repeat constructor).
    - apply List.Forall_forall. intros p Hp.
      apply in_map_iff in Hp as (mv & <- & _). discriminate.
    - apply List.Forall_forall. intros p Hp.
      apply in_flat_map in Hp as ([k' v'] & Hkv & Hp).
      rewrite List.Forall_forall in IH.
      specialize (IH _ Hkv (pre +:+ k +:+ ".") k').
      rewrite List.Forall_forall in IH. now apply IH. }
  unfold mapToPlist. apply List.Forall_forall. intros p Hp.
  apply in_flat_map in Hp as ([k v] & _ & Hp).
  specialize (Entry v prefix k). rewrite List.Forall_forall in Entry. now apply Entry.
Qed.

(** ** The earlier codec *)

Section FlatFacts.

Lemma flat_more_elements k l : forall acc l0,
  doc_get k acc = None ->
  fold_left datastoreapi.addProperty (List.map (fun mv => mkProperty k mv true) l)
            (acc ++ [(k, VArr l0)])
  = acc ++ [(k, VArr (l0 ++ l))].
Proof.
  induction l as [|a l IH]; intros acc l0 Hacc; simpl.
  - now rewrite app_nil_r.
  - unfold datastoreapi.addProperty at 2. simpl. unfold setLeaf.
    rewrite (doc_get_last _ _ _ Hacc), (doc_set_last _ _ _ _ Hacc).
    rewrite (IH _ _ Hacc). now rewrite <- app_assoc.
Qed.

Lemma flat_entry k v acc :
  flatValue v = true -> doc_get k acc = None ->
  fold_left datastoreapi.addProperty (datastoreapi.entryToPlist k v) acc = acc ++ [(k, v)].
Proof.
  intros Hv Hacc.
  assert (One : forall mult, fold_left datastoreapi.addProperty [mkProperty k v mult] acc
                             = acc ++ [(k, v)]).
  { intros mult. simpl. unfold datastoreapi.addProperty, setLeaf. simpl.
    rewrite Hacc. now apply doc_set_absent. }
  destruct v as [ | b | f | i | s | l | m]; try apply One.
  destruct l as [|a [|b l]]; try discriminate.
  simpl in Hv. apply negb_true_iff in Hv.
  change (datastoreapi.entryToPlist k (VArr (a :: b :: l)))
    with (mkProperty k a true :: mkProperty k b true
          :: List.map (fun mv => mkProperty k mv true) l).
  cbn [fold_left]. unfold datastoreapi.addProperty at 2 3. simpl Name. simpl PValue.
  unfold setLeaf at 2. rewrite Hacc, (doc_set_absent _ _ _ Hacc).
  unfold setLeaf. rewrite (doc_get_last _ _ _ Hacc), (doc_set_last _ _ _ _ Hacc).
  destruct a; try discriminate; now rewrite (flat_more_elements _ _ _ _ Hacc).
Qed.

Lemma flat_entries d : forall acc,
  forallb (fun kv => flatValue (snd kv)) d = true ->
  uniq (keys d) = true ->
  (forall k, In k (keys d) -> doc_get k acc = None) ->
  fold_left datastoreapi.addProperty (datastoreapi.mapToPlist d) acc = acc ++ d.
Proof.
  induction d as [|[k v] d IH]; intros acc Hall Huniq Hfresh.
  - simpl. now rewrite app_nil_r.
  - change (datastoreapi.mapToPlist ((k, v) :: d))
      with (datastoreapi.entryToPlist k v ++ datastoreapi.mapToPlist d).
    rewrite fold_left_app.
    simpl in Hall. apply andb_prop in Hall as [Hv Hall].
    apply uniq_cons in Huniq as [Hnotin Huniq].
    rewrite (flat_entry k v acc Hv) by (apply Hfresh; now left).
    rewrite (IH _ Hall Huniq).
    + now rewrite <- app_assoc.
    + intros k' Hin. rewrite doc_get_app, (Hfresh k') by now right.
      simpl. destruct (String.eqb k' k) eqn:E; [|reflexivity].
      apply String.eqb_eq in E. subst k'. contradiction.
Qed.

End FlatFacts.

(** X17: the codec of [datastoreapi.go], which uses the whole name as the
    key, gives back every document with unique keys whose arrays have two
    elements or more and do not start with an array; nested documents and
    keys with dots included, since it stores them as they are. *)
Theorem flat_round_trip (d : Doc) (id : Z) :
  flatDoc d = true ->
  datastoreapi.plistToMap (datastoreapi.mapToPlist d) id = doc_set idKey (VInt id) d.
Proof.
  unfold flatDoc, datastoreapi.plistToMap. intros H.
  apply andb_prop in H as [Huniq Hall].
  now rewrite (flat_entries d []).
Qed.

Lemma flat_round_trip_witness :
  datastoreapi.plistToMap
    (datastoreapi.mapToPlist
       [("a.b", VInt 1); ("tags", VArr [VStr "x"; VStr "y"]); ("sub", VDoc [])]) 3
  = doc_set idKey (VInt 3)
      [("a.b", VInt 1); ("tags", VArr [VStr "x"; VStr "y"]); ("sub", VDoc [])].
Proof.
  exact (flat_round_trip
           [("a.b", VInt 1); ("tags", VArr [VStr "x"; VStr "y"]); ("sub", VDoc [])] 3 eq_refl).
Defined.

(** X18: the two codecs agree where no nesting is involved: a document
    without nested documents has the same encoding in both, and a
    property list whose names have no dot decodes to the same document
    in both. *)
Theorem codecs_agree_when_flat (d : Doc) (pl : PropertyList) (id : Z) :
  forallb (fun kv => negb (isDoc (snd kv))) d = true ->
  Forall (fun p => lacks "." (Name p) = true) pl ->
  mapToPlist "" d = datastoreapi.mapToPlist d
  /\ plistToMap pl id = datastoreapi.plistToMap pl id.
Proof.
  intros Hd Hpl. split.
  - unfold mapToPlist, datastoreapi.mapToPlist.
    induction d as [|[k v] d IH]; [reflexivity|].
    simpl in Hd. apply andb_prop in Hd as [Hv Hd]. simpl. rewrite (IH Hd).
    f_equal. destruct v; try reflexivity. discriminate.
  - unfold plistToMap, datastoreapi.plistToMap, decodeProps. f_equal.
    generalize (@nil (string * Value)).
    induction Hpl as [|[n v mult] pl Hn _ IH]; intros m; [reflexivity|].
    simpl in *. rewrite (addProperty_plain _ _ _ _ Hn). apply IH.
Qed.

Lemma codecs_agree_when_flat_witness :
  mapToPlist "" [("name", VStr "A"); ("tags", VArr [VStr "x"; VStr "y"])]
  = datastoreapi.mapToPlist [("name", VStr "A"); ("tags", VArr [VStr "x"; VStr "y"])]
  /\ plistToMap [mkProperty "name" (VStr "A") false] 3
     = datastoreapi.plistToMap [mkProperty "name" (VStr "A") false] 3.
Proof.
  apply (codecs_agree_when_flat
           [("name", VStr "A"); ("tags", VArr [VStr "x"; VStr "y"])]
           [mkProperty "name" (VStr "A") false] 3).
  - reflexivity.
  - repeat constructor.
Defined.

(** ** Query parameters *)

Section QueryFacts.

Lemma Split_two sep w k v :
  Split sep w = [k; v] ->
  w = k +:+ String sep v /\ lacks sep k = true /\ lacks sep v = true.
Proof.
  intros E. pose proof (Join_Split sep w) as J. pose proof (Split_pieces sep w) as L.
  rewrite E in J, L. inversion L as [|? ? Lk Lv]; subst. inversion Lv; subst.
  now repeat split.
Qed.

Lemma parseFilters_sound ws : forall acc fs,
  parseFilters ws acc = Some fs ->
  exists fs', fs = acc ++ fs' /\ List.map whereOf fs' = ws
              /\ Forall (fun f => lacks "=" (Key f) = true /\ lacks "=" (FValue f) = true) fs'.
Proof.
  induction ws as [|w ws IH]; intros acc fs H; simpl in H.
  - injection H as <-. exists []. now rewrite app_nil_r.
  - destruct (Split "=" w) as [|k [|v [|x t]]] eqn:E; try discriminate.
    destruct (IH _ _ H) as (fs' & -> & Hmap & Hall).
    apply Split_two in E as (-> & Lk & Lv).
    exists (mkFilter k v :: fs'). rewrite <- app_assoc. repeat split.
    + simpl. now rewrite Hmap.
    + constructor; [now split | exact Hall].
Qed.

Lemma parseFilters_refuses w ws : forall acc,
  In w ws -> List.length (Split "=" w) <> 2%nat -> parseFilters ws acc = None.
Proof.
  induction ws as [|w' ws IH]; intros acc Hin Hlen; [contradiction|]. simpl.
  destruct Hin as [-> | Hin].
  - destruct (Split "=" w) as [|k [|v [|x t]]]; try reflexivity. now simpl in Hlen.
  - destruct (Split "=" w') as [|k [|v [|x t]]]; try reflexivity. now apply IH.
Qed.

Lemma withFilters_ops fs : forall q,
  qOps (fold_left (fun q f => derive (QFilter (Key f) (FValue f)) q) fs q)
  = qOps q ++ List.map (fun f => QFilter (Key f) (FValue f)) fs
  /\ qKind (fold_left (fun q f => derive (QFilter (Key f) (FValue f)) q) fs q) = qKind q.
Proof.
  induction fs as [|f fs IH]; intros q; simpl.
  - now rewrite app_nil_r.
  - destruct (IH (derive (QFilter (Key f) (FValue f)) q)) as [-> ->]. simpl.
    now rewrite <- app_assoc.
Qed.

(** The derivations of the query that [list] builds, oldest first. *)
Lemma buildQuery_ops env kind uq :
  qOps (buildQuery env kind uq)
  = (if Limit uq =? 0 then [] else [QLimit (Limit uq)])
    ++ (if String.eqb (Sort uq) "" then [] else [QOrder (Sort uq)])
    ++ cursorOp QStart (DecodeCursor env (StartCursor uq))
    ++ cursorOp QEnd (DecodeCursor env (EndCursor uq))
    ++ List.map (fun f => QFilter (Key f) (FValue f)) (Filters uq)
  /\ qKind (buildQuery env kind uq) = kind.
Proof.
  unfold buildQuery, withFilters.
  destruct (withFilters_ops (Filters uq)
              (withEnd env uq (withStart env uq (withSort uq (withLimit uq (NewQuery kind))))))
    as [-> ->].
  unfold withEnd, withStart, withSort, withLimit, cursorOp.
  destruct (Limit uq =? 0), (String.eqb (Sort uq) ""),
    (DecodeCursor env (StartCursor uq)), (DecodeCursor env (EndCursor uq));
    simpl; now rewrite <- ?app_assoc.
Qed.

Lemma filterWheres_app a b : filterWheres (a ++ b) = filterWheres a ++ filterWheres b.
Proof. unfold filterWheres. apply flat_map_app. Qed.

Lemma filterWheres_filters fs :
  filterWheres (List.map (fun f => QFilter (Key f) (FValue f)) fs) = List.map whereOf fs.
Proof. induction fs as [|f fs IH]; simpl; [reflexivity | now rewrite IH]. Qed.

Lemma newUserQuery_parts r uq :
  newUserQuery r = Some uq ->
  (if String.eqb (FormValue r "limit") "" then Some 0 else ParseInt (FormValue r "limit"))
  = Some (Limit uq)
  /\ parseFilters (default [] (Form r !! "where")) [] = Some (Filters uq)
  /\ StartCursor uq = FormValue r "start" /\ EndCursor uq = FormValue r "end"
  /\ Sort uq = FormValue r "sort".
Proof.
  unfold newUserQuery.
  destruct (if String.eqb (FormValue r "limit") "" then Some 0
            else ParseInt (FormValue r "limit")) as [n|]; [|discriminate].
  destruct (parseFilters (default [] (Form r !! "where")) []) as [fs|]; [|discriminate].
  intros H. injection H as <-. now repeat split.
Qed.

End QueryFacts.

(** X19: [newUserQuery] accepts the [where] parameters exactly when each
    of them has one [=]: then the filters are, in order, the text before
    and the text after the [=] of each parameter, and a parameter with no
    [=] or with more than one makes it fail. *)
Theorem where_parameters_parse (ws : list string) :
  (forall fs, parseFilters ws [] = Some fs ->
     List.map whereOf fs = ws
     /\ Forall (fun f => lacks "=" (Key f) = true /\ lacks "=" (FValue f) = true) fs)
  /\ (forall w, In w ws -> List.length (Split "=" w) <> 2%nat -> parseFilters ws [] = None)
  /\ (Forall (fun w => List.length (Split "=" w) = 2%nat) ws ->
      exists fs, parseFilters ws [] = Some fs).
Proof.
  repeat split.
  - destruct (parseFilters_sound ws [] fs H) as (fs' & -> & Hmap & _). exact Hmap.
  - destruct (parseFilters_sound ws [] fs H) as (fs' & -> & _ & Hall). exact Hall.
  - intros w Hin Hlen. now apply (parseFilters_refuses w).
  - intros Hall. destruct (parseFilters ws []) as [fs|] eqn:E; [now exists fs|].
    exfalso. revert E. generalize (@nil filter).
    induction Hall as [|w ws Hw _ IH]; intros acc; simpl; [discriminate|].
    destruct (Split "=" w) as [|k [|v [|x t]]]; try discriminate. apply IH.
Qed.

Lemma where_parameters_parse_witness :
  List.map whereOf [mkFilter "name" "Alice"; mkFilter "city" "X"]
  = ["name=Alice"%string; "city=X"%string]
  /\ parseFilters ["name=Alice"%string; "a=b=c"%string] [] = None.
Proof.
  destruct (where_parameters_parse ["name=Alice"%string; "city=X"%string]) as (H1 & _).
  destruct (where_parameters_parse ["name=Alice"%string; "a=b=c"%string]) as (_ & H2 & _).
  split.
  - exact (proj1 (H1 _ eq_refl)).
  - apply (H2 "a=b=c"%string); [right; left; reflexivity | discriminate].
Defined.

(** X20: the query is limited exactly when the [limit] parameter is a
    number other than zero: [limit=0] is the same as no limit, and a
    negative limit is passed on as it is. *)
Theorem limit_parameter (env : Env) (kind : string) (r : Request) (uq : userQuery) (n : Z) :
  newUserQuery r = Some uq ->
  In (QLimit n) (qOps (buildQuery env kind uq))
  <-> n <> 0 /\ FormValue r "limit" <> EmptyString /\ ParseInt (FormValue r "limit") = Some n.
Proof.
  intros H. apply newUserQuery_parts in H as (Hlim & _).
  destruct (buildQuery_ops env kind uq) as [-> _].
  assert (Rest : ~ In (QLimit n)
            ((if String.eqb (Sort uq) "" then [] else [QOrder (Sort uq)])
             ++ cursorOp QStart (DecodeCursor env (StartCursor uq))
             ++ cursorOp QEnd (DecodeCursor env (EndCursor uq))
             ++ List.map (fun f => QFilter (Key f) (FValue f)) (Filters uq))).
  { intros Hin. repeat (apply in_app_or in Hin as [Hin | Hin]).
    - destruct (String.eqb (Sort uq) ""); simpl in Hin; intuition discriminate.
    - destruct (DecodeCursor env (StartCursor uq)); simpl in Hin; intuition discriminate.
    - destruct (DecodeCursor env (EndCursor uq)); simpl in Hin; intuition discriminate.
    - apply in_map_iff in Hin as (f & E & _). discriminate. }
  split.
  - intros Hin. apply in_app_or in Hin as [Hin | Hin]; [|contradiction].
    destruct (Limit uq =? 0) eqn:Z0; [contradiction|].
    apply Z.eqb_neq in Z0. destruct Hin as [E | []]. injection E as <-.
    destruct (String.eqb (FormValue r "limit") "") eqn:El.
    + injection Hlim as Hlim. congruence.
    + apply String.eqb_neq in El. now repeat split.
  - intros (Hn & Hne & Hp). apply String.eqb_neq in Hne. rewrite Hne, Hp in Hlim.
    injection Hlim as <-. apply Z.eqb_neq in Hn. rewrite Hn. now left.
Qed.

Lemma limit_parameter_witness :
  ~ In (QLimit 0)
      (qOps (buildQuery (devEnv 0 1 IterDone) "u1--contact" (mkUserQuery 0 "" "" "" []))).
Proof.
  intros Hin.
  apply (limit_parameter (devEnv 0 1 IterDone) "u1--contact"
           (mkRequest "GET" "/contact" {[ "limit"%string := ["0"%string] ]} "" BodyInvalid)
           (mkUserQuery 0 "" "" "" []) 0) in Hin as [Hn _]; [|vm_compute; reflexivity].
  now apply Hn.
Defined.

(** X21: the [Filter] derivations of the query that [list] runs are the
    [where] parameters of the request, each once and in their order: no
    filter is dropped or added. *)
Theorem filters_reach_query (env : Env) (kind : string) (r : Request) (uq : userQuery) :
  newUserQuery r = Some uq ->
  filterWheres (qOps (buildQuery env kind uq)) = default [] (Form r !! "where")
  /\ qKind (buildQuery env kind uq) = kind.
Proof.
  intros H. apply newUserQuery_parts in H as (_ & Hfs & _).
  destruct (buildQuery_ops env kind uq) as [-> ->]. split; [|reflexivity].
  rewrite !filterWheres_app, filterWheres_filters.
  destruct (parseFilters_sound _ _ _ Hfs) as (fs' & E & Hmap & _). simpl in E. subst fs'.
  rewrite Hmap.
  destruct (Limit uq =? 0), (String.eqb (Sort uq) ""),
    (DecodeCursor env (StartCursor uq)), (DecodeCursor env (EndCursor uq)); reflexivity.
Qed.

Lemma filters_reach_query_witness :
  filterWheres
    (qOps (buildQuery (devEnv 0 1 IterDone) "u1--contact"
             (mkUserQuery 2 "" "" "name" [mkFilter "name" "Alice"; mkFilter "city" "X"])))
  = default [] (({[ "where"%string := ["name=Alice"%string; "city=X"%string];
                    "limit"%string := ["2"%string];
                    "sort"%string := ["name"%string] ]} : gmap string (list string))
                  !! "where"%string).
Proof.
  refine (proj1 (filters_reach_query (devEnv 0 1 IterDone) "u1--contact"
           (mkRequest "GET" "/contact"
              {[ "where"%string := ["name=Alice"%string; "city=X"%string];
                 "limit"%string := ["2"%string];
                 "sort"%string := ["name"%string] ]} "" BodyInvalid)
           (mkUserQuery 2 "" "" "name" [mkFilter "name" "Alice"; mkFilter "city" "X"]) _)).
  vm_compute. reflexivity.
Defined.

(** ** The rows that [list] returns *)

Section RowFacts.

Lemma last_push {A} (l : list A) : forall a d, List.last (a :: l) d = List.last l a.
Proof.
  induction l as [|b l IH]; intros a d; [reflexivity|].
  change (List.last (a :: b :: l) d) with (List.last (b :: l) d).
  now rewrite (IH b d), (IH b a).
Qed.

Lemma drain_rows rows : forall items crs,
  drain (after rows IterDone) items crs
  = Some (items ++ List.map (fun row => plistToMap (snd (fst row)) (fst (fst row))) rows,
          List.last (List.map snd rows) crs).
Proof.
  induction rows as [|[[k pl] c] rows IH]; intros items crs.
  - simpl. now rewrite app_nil_r.
  - change (drain (after ((k, pl, c) :: rows) IterDone) items crs)
      with (drain (after rows IterDone) (items ++ [plistToMap pl k]) c).
    rewrite IH, <- app_assoc.
    change (List.map snd ((k, pl, c) :: rows)) with (c :: List.map snd rows).
    now rewrite last_push.
Qed.

End RowFacts.

(** X22: when the iterator yields rows and then [Done], with a cursor
    after each row, [list] answers 200 with one document per row, in the
    order of the rows, each decoded from the row's properties with the
    row's id under [_id], and with the cursor after the last row as
    [nextStartToken] (the empty token when there is no row). *)
Theorem list_collects_rows
    (env : Env) (kind : string) (uq : userQuery) (rows : list (Z * PropertyList * Cursor)) :
  Run env (buildQuery env kind uq) = after rows IterDone ->
  list_ env kind uq
  = Returned (Some [("items", VArr (List.map itemOf rows));
                    ("nextStartToken", VStr (List.last (List.map snd rows) zeroCursor))])
      StatusOK
  /\ Forall (fun row => exists m, itemOf row = VDoc m
                                  /\ doc_get idKey m = Some (VInt (fst (fst row)))) rows.
Proof.
  intros H. split.
  - unfold list_, runList. rewrite H, drain_rows. simpl.
    now rewrite List.map_map.
  - apply List.Forall_forall. intros row _. eexists. split; [reflexivity|].
    apply doc_get_set_same.
Qed.

Lemma list_collects_rows_witness :
  list_ (devEnv 200 1
           (after [(4, [mkProperty "name" (VStr "Alice") false], "c4"%string);
                   (9, [mkProperty "name" (VStr "Bob") false], "c9"%string)] IterDone))
        "u1--contact" (mkUserQuery 0 "" "" "" [])
  = Returned
      (Some [("items",
              VArr (List.map itemOf
                      [(4, [mkProperty "name" (VStr "Alice") false], "c4"%string);
                       (9, [mkProperty "name" (VStr "Bob") false], "c9"%string)]));
             ("nextStartToken",
              VStr (List.last
                      (List.map snd
                         [(4, [mkProperty "name" (VStr "Alice") false], "c4"%string);
                          (9, [mkProperty "name" (VStr "Bob") false], "c9"%string)])
                      zeroCursor))])
      StatusOK.
Proof.
  refine (proj1 (list_collects_rows
           (devEnv 200 1
              (after [(4, [mkProperty "name" (VStr "Alice") false], "c4"%string);
                      (9, [mkProperty "name" (VStr "Bob") false], "c9"%string)] IterDone))
           "u1--contact" (mkUserQuery 0 "" "" "" []) _ _)).
  reflexivity.
Defined.

(** ** What the writers return *)

Section EchoFacts.

Lemma doc_get_delete_other k k' m : k <> k' -> doc_get k (doc_delete k' m) = doc_get k m.
Proof.
  intros Hne. induction m as [|[k0 v0] m IH]; simpl; [reflexivity|].
  destruct (String.eqb k' k0) eqn:E; simpl.
  - apply String.eqb_eq in E. subst k0.
    apply String.eqb_neq in Hne. now rewrite Hne.
  - now rewrite IH.
Qed.

End EchoFacts.

(** X23: the document that a successful [insert] or [update] returns is
    the request body with the metadata overwritten, not what the codec
    stored: every field other than [_id], [_created] and [_updated] is
    returned as it was sent.  [insert] adds [_created] with the clock's
    value; [update] adds [_updated] and returns no [_created] at all. *)
Theorem writers_echo_body
    (env : Env) (s : Store) (kind : string) (id : Z) (body : Doc) (k : string) :
  backendErr env = false ->
  k <> idKey -> k <> createdKey -> k <> updatedKey ->
  (exists m, fst (insert env s kind (BodyDoc body)) = Returned (Some m) StatusOK
             /\ doc_get k m = doc_get k body
             /\ doc_get createdKey m = Some (VInt (nowUnix env)))
  /\ (exists m, fst (update env s kind id (BodyDoc body)) = Returned (Some m) StatusOK
                /\ doc_get k m = doc_get k body
                /\ doc_get updatedKey m = Some (VInt (nowUnix env))
                /\ doc_get createdKey m = None).
Proof.
  intros Hok Hid Hcr Hup. unfold insert, update. rewrite Hok. simpl. split.
  - eexists. split; [reflexivity|]. split.
    + now rewrite !doc_get_set_other.
    + rewrite doc_get_set_other by discriminate. apply doc_get_set_same.
  - eexists. split; [reflexivity|]. repeat split.
    + now rewrite !doc_get_set_other, !doc_get_delete_other.
    + rewrite doc_get_set_other by discriminate. apply doc_get_set_same.
    + rewrite !doc_get_set_other by discriminate.
      rewrite doc_get_delete_other by discriminate. apply doc_get_delete_same.
Qed.

Lemma writers_echo_body_witness :
  exists m,
    fst (insert (devEnv 200 4 IterDone) ∅ "u1--contact"
           (BodyDoc [("tags", VArr []); ("_created", VStr "mine")]))
    = Returned (Some m) StatusOK
    /\ doc_get "tags" m = doc_get "tags" [("tags", VArr []); ("_created", VStr "mine")]
    /\ doc_get createdKey m = Some (VInt (nowUnix (devEnv 200 4 IterDone))).
Proof.
  refine (proj1 (writers_echo_body (devEnv 200 4 IterDone) ∅ "u1--contact" 0
                   [("tags", VArr []); ("_created", VStr "mine")] "tags" _ _ _ _));
    [reflexivity | discriminate | discriminate | discriminate].
Defined.
